(** * Block document model, serializer and PDF pagination of the
      research-note editor ([RichNoteEditor.tsx], [ProjectView.tsx]). *)

From Stdlib Require Import Bool Arith List Lia ZArith NArith QArith Qround Lqa Psatz.
From Stdlib Require Import String Ascii DecimalString DecimalN DecimalPos DecimalFacts.
From Stdlib Require Import Floats.
Import ListNotations.

Open Scope nat_scope.
Open Scope list_scope.
Set Warnings "-register-all".
Set Warnings "-inexact-float".


(* ------------------------------------------------------------------ *)
(** ** JavaScript numbers and number-to-string conversion *)

(** A JavaScript [number]: an IEEE 754 binary64 value, Rocq's primitive
    [float] (with its two zeros, its infinities and NaN). *)
Definition jsnum : Type := float.

(** [Math.min(x, y)]: NaN if either is NaN, [-0] when comparing [-0]
    with [+0], the smaller value otherwise. *)
Definition js_min (x y : jsnum) : jsnum :=
  if PrimFloat.is_nan x then x
  else if PrimFloat.is_nan y then y
  else if PrimFloat.ltb x y then x
  else if PrimFloat.ltb y x then y
  else if PrimFloat.get_sign x then x else y.

(** The number value of a DOM [unsigned long] attribute such as
    [canvas.width]: the integer modulo [2^32], exact as a double. *)
Definition ulong (n : N) : jsnum :=
  PrimFloat.of_uint63 (Uint63.of_Z (Z.of_N (N.modulo n (2 ^ 32)))).

(** [n.toString()] for a non-negative integer. *)
Definition N_str (n : N) : string := NilEmpty.string_of_uint (N.to_uint n).

Definition nat_str (n : nat) : string := N_str (N.of_nat n).

(** [String.fromCharCode(n)]: strings are modelled as byte strings, so
    the code unit is taken modulo 256. *)
Definition fromCharCode (n : nat) : string := String (ascii_of_nat n) EmptyString.

(* ------------------------------------------------------------------ *)
(** ** Data model (interfaces [TableData], [ChartData], [Block]) *)

Record TableData : Type := mkTable {
  rows : list (list string);
  colHeaders : option (list string);
  rowHeaders : option (list string)
}.

Inductive chart_type : Type := Line | Bar.

Record DataPoint : Type := mkPoint {
  pname : string;
  pvalue : jsnum
}.

Record ChartData : Type := mkChart {
  ctype : chart_type;
  title : option string;
  xAxisLabel : option string;
  yAxisLabel : option string;
  data : list DataPoint
}.

Inductive block_type : Type := BText | BImage | BTable | BChart.

Record Block : Type := mkBlock {
  bid : string;
  btype : block_type;
  content : string;
  width : option jsnum;
  tableData : option TableData;
  chartData : option ChartData
}.

Definition Document := list Block.

Definition block_type_eqb (x y : block_type) : bool :=
  match x, y with
  | BText, BText | BImage, BImage | BTable, BTable | BChart, BChart => true
  | _, _ => false
  end.

Definition text_block (id c : string) : Block :=
  mkBlock id BText c None None None.

(** Spread updates [{ ...b, field }]. *)
Definition set_content (b : Block) (c : string) : Block :=
  mkBlock (bid b) (btype b) c (width b) (tableData b) (chartData b).
Definition set_width (b : Block) (w : jsnum) : Block :=
  mkBlock (bid b) (btype b) (content b) (Some w) (tableData b) (chartData b).
Definition set_tableData (b : Block) (t : TableData) : Block :=
  mkBlock (bid b) (btype b) (content b) (width b) (Some t) (chartData b).
Definition set_chartData (b : Block) (c : ChartData) : Block :=
  mkBlock (bid b) (btype b) (content b) (width b) (tableData b) (Some c).

(** [arr.filter((_, i) => i !== index)] *)
Fixpoint remove_at {A : Type} (index : nat) (l : list A) : list A :=
  match l, index with
  | [], _ => []
  | _ :: l', 0 => l'
  | x :: l', S i => x :: remove_at i l'
  end.

(* ------------------------------------------------------------------ *)
(** ** Block store: the editor's handlers on its [blocks] state *)

Module Editor.

(** [handleTextChange] *)
Definition handleTextChange (blocks : Document) (id c : string) : Document :=
  map (fun b => if String.eqb (bid b) id then set_content b c else b) blocks.

(** [handleImageResize] *)
Definition handleImageResize (blocks : Document) (id : string) (w : jsnum) : Document :=
  map (fun b => if String.eqb (bid b) id then set_width b w else b) blocks.

(** [handleTableChange] *)
Definition handleTableChange (blocks : Document) (id : string) (t : TableData) : Document :=
  map (fun b => if String.eqb (bid b) id then set_tableData b t else b) blocks.

(** [handleChartChange] *)
Definition handleChartChange (blocks : Document) (id : string) (c : ChartData) : Document :=
  map (fun b => if String.eqb (bid b) id then set_chartData b c else b) blocks.

(** [removeBlock]; [now] is [Date.now()].  On an empty [blocks] the read
    [blocks[0].type] throws a TypeError, modelled by [None]. *)
Definition removeBlock (now : N) (blocks : Document) (id : string) : option Document :=
  let keep := filter (fun b => negb (String.eqb (bid b) id)) blocks in
  if Nat.leb (List.length blocks) 1 then
    match blocks with
    | [] => None
    | b :: _ =>
        if block_type_eqb (btype b) BText
        then Some [text_block (N_str now) ""%string]
        else Some keep
    end
  else Some keep.

(** [addImageBlock]; [now1] and [now2] are the two reads of [Date.now()],
    for the new block's id and for the id of the text block after it. *)
Definition addImageBlock (now1 now2 : N) (blocks : Document) (src : string) : Document :=
  blocks ++ [mkBlock (N_str now1) BImage src (Some 100%float) None None;
             text_block (N_str (now2 + 1)) ""%string].

Definition default_table : TableData :=
  mkTable [[""; ""; ""]; [""; ""; ""]]%string
          (Some ["A"; "B"; "C"]%string) (Some ["1"; "2"]%string).

(** [addTableBlock], with the two reads of [Date.now()]. *)
Definition addTableBlock (now1 now2 : N) (blocks : Document) : Document :=
  blocks ++ [mkBlock (N_str now1) BTable ""%string None (Some default_table) None;
             text_block (N_str (now2 + 1)) ""%string].

Definition default_chart : ChartData :=
  mkChart Line (Some "New Research Chart"%string) None None
    [mkPoint "Jan" 400%float; mkPoint "Feb" 300%float; mkPoint "Mar" 600%float]%string.

(** [addChartBlock], with the two reads of [Date.now()]. *)
Definition addChartBlock (now1 now2 : N) (blocks : Document) : Document :=
  blocks ++ [mkBlock (N_str now1) BChart ""%string None None (Some default_chart);
             text_block (N_str (now2 + 1)) ""%string].

End Editor.

(* ------------------------------------------------------------------ *)
(** ** Table block mutations ([TableBlock]) *)

Module Table.

(** [addRow] *)
Definition addRow (t : TableData) : TableData :=
  let colCount := match rows t with
                  | r :: _ => match List.length r with 0 => 1 | n => n end
                  | [] => 1
                  end in
  mkTable (rows t ++ [repeat ""%string colCount])
          (colHeaders t)
          (option_map (fun h => h ++ [nat_str (List.length (rows t) + 1)]) (rowHeaders t)).

(** [removeRow] *)
Definition removeRow (index : nat) (t : TableData) : TableData :=
  if 1 <? List.length (rows t) then
    mkTable (remove_at index (rows t)) (colHeaders t)
            (option_map (remove_at index) (rowHeaders t))
  else t.

(** [addColumn]; [data.rows[0].length] is read only when column headers
    are stored, and throws (here [None]) when there is no row. *)
Definition addColumn (t : TableData) : option TableData :=
  let rows' := map (fun r => r ++ [""%string]) (rows t) in
  match colHeaders t with
  | None => Some (mkTable rows' None (rowHeaders t))
  | Some h =>
      match rows t with
      | [] => None
      | r0 :: _ =>
          Some (mkTable rows' (Some (h ++ [fromCharCode (65 + List.length r0)]))
                        (rowHeaders t))
      end
  end.

(** [removeColumn]; [data.rows[0].length] throws when there is no row. *)
Definition removeColumn (index : nat) (t : TableData) : option TableData :=
  match rows t with
  | [] => None
  | r0 :: _ =>
      if 1 <? List.length r0 then
        Some (mkTable (map (remove_at index) (rows t))
                      (option_map (remove_at index) (colHeaders t)) (rowHeaders t))
      else Some t
  end.

Inductive table_op : Type :=
| AddRow
| AddColumn
| RemoveRow (index : nat)
| RemoveColumn (index : nat).

Definition apply_op (op : table_op) (t : TableData) : option TableData :=
  match op with
  | AddRow => Some (addRow t)
  | AddColumn => addColumn t
  | RemoveRow i => Some (removeRow i t)
  | RemoveColumn i => removeColumn i t
  end.

Fixpoint apply_ops (ops : list table_op) (t : TableData) : option TableData :=
  match ops with
  | [] => Some t
  | op :: ops' =>
      match apply_op op t with
      | Some t' => apply_ops ops' t'
      | None => None
      end
  end.

(** Rectangular table with at least one row and one column, stored header
    lists matching the counts. *)
Definition rectangular (t : TableData) : Prop :=
  exists ncols,
    1 <= ncols /\ 1 <= List.length (rows t) /\
    Forall (fun r => List.length r = ncols) (rows t) /\
    (forall h, colHeaders t = Some h -> List.length h = ncols) /\
    (forall h, rowHeaders t = Some h -> List.length h = List.length (rows t)).

(** [arr.map((x, i) => ...)]: the callback also receives the index. *)
Fixpoint mapi_from {A B : Type} (f : nat -> A -> B) (i : nat) (l : list A) : list B :=
  match l with
  | [] => []
  | x :: l' => f i x :: mapi_from f (S i) l'
  end.

Definition mapi {A B : Type} (f : nat -> A -> B) (l : list A) : list B := mapi_from f 0 l.

(** [updateCell] *)
Definition updateCell (rowIndex colIndex : nat) (value : string) (t : TableData) : TableData :=
  let newRows :=
    mapi (fun rIdx row =>
            if rIdx =? rowIndex
            then mapi (fun cIdx cell => if cIdx =? colIndex then value else cell) row
            else row) (rows t) in
  mkTable newRows (colHeaders t) (rowHeaders t).

(** [newHeaders[i] = value] on a copy of a header list.  Inside the array
    the element is replaced and one past its end it is appended; further
    out JavaScript leaves holes in the array, which a [list string] cannot
    hold: [None]. *)
Fixpoint js_set (l : list string) (i : nat) (v : string) : option (list string) :=
  match l, i with
  | [], 0 => Some [v]
  | [], S _ => None
  | _ :: l', 0 => Some (v :: l')
  | x :: l', S i' => option_map (cons x) (js_set l' i' v)
  end.

(** [data.colHeaders || data.rows[0].map((_, i) => String.fromCharCode(65 + i))];
    [data.rows[0].map] throws when there is no row: [None]. *)
Definition col_headers_or_default (t : TableData) : option (list string) :=
  match colHeaders t with
  | Some h => Some h
  | None =>
      match rows t with
      | r0 :: _ => Some (mapi (fun i _ => fromCharCode (65 + i)) r0)
      | [] => None
      end
  end.

(** [updateColHeader] *)
Definition updateColHeader (colIndex : nat) (value : string) (t : TableData)
  : option TableData :=
  match col_headers_or_default t with
  | Some base =>
      option_map (fun h => mkTable (rows t) (Some h) (rowHeaders t)) (js_set base colIndex value)
  | None => None
  end.

(** [data.rowHeaders || data.rows.map((_, i) => (i + 1).toString())] *)
Definition row_headers_or_default (t : TableData) : list string :=
  match rowHeaders t with
  | Some h => h
  | None => mapi (fun i _ => nat_str (i + 1)) (rows t)
  end.

(** [updateRowHeader] *)
Definition updateRowHeader (rowIndex : nat) (value : string) (t : TableData)
  : option TableData :=
  option_map (fun h => mkTable (rows t) (colHeaders t) (Some h))
             (js_set (row_headers_or_default t) rowIndex value).

(** [data.colHeaders?.[colIndex] || String.fromCharCode(65 + colIndex)],
    the label shown above a column. *)
Definition colHeaderLabel (t : TableData) (colIndex : nat) : string :=
  match match colHeaders t with Some h => nth_error h colIndex | None => None end with
  | Some s => if String.eqb s "" then fromCharCode (65 + colIndex) else s
  | None => fromCharCode (65 + colIndex)
  end.

(** [data.rowHeaders?.[rowIndex] || (rowIndex + 1).toString()] *)
Definition rowHeaderLabel (t : TableData) (rowIndex : nat) : string :=
  match match rowHeaders t with Some h => nth_error h rowIndex | None => None end with
  | Some s => if String.eqb s "" then nat_str (rowIndex + 1) else s
  | None => nat_str (rowIndex + 1)
  end.

(** The cell read as [data.rows[r][c]]. *)
Definition cell (t : TableData) (r c : nat) : option string :=
  match nth_error (rows t) r with
  | Some row => nth_error row c
  | None => None
  end.

End Table.

(* ------------------------------------------------------------------ *)
(** ** Chart block mutations ([ChartBlock]) *)

Module Chart.

Definition set_data (c : ChartData) (d : list DataPoint) : ChartData :=
  mkChart (ctype c) (title c) (xAxisLabel c) (yAxisLabel c) d.

(** [addPoint] *)
Definition addPoint (c : ChartData) : ChartData :=
  set_data c (data c ++ [mkPoint ("Point " ++ nat_str (List.length (data c) + 1))%string
                                 0%float]).

(** [removePoint] *)
Definition removePoint (index : nat) (c : ChartData) : ChartData :=
  if 1 <? List.length (data c) then set_data c (remove_at index (data c)) else c.

(** [toggleType] *)
Definition toggleType (c : ChartData) : ChartData :=
  mkChart (match ctype c with Line => Bar | Bar => Line end)
          (title c) (xAxisLabel c) (yAxisLabel c) (data c).

(** [updateTitle] *)
Definition updateTitle (s : string) (c : ChartData) : ChartData :=
  mkChart (ctype c) (Some s) (xAxisLabel c) (yAxisLabel c) (data c).

(** [updateAxisLabel] *)
Definition updateAxisLabel (x_axis : bool) (s : string) (c : ChartData) : ChartData :=
  if x_axis then mkChart (ctype c) (title c) (Some s) (yAxisLabel c) (data c)
  else mkChart (ctype c) (title c) (xAxisLabel c) (Some s) (data c).

Inductive chart_op : Type :=
| AddPoint
| RemovePoint (index : nat)
| ToggleType
| UpdateTitle (s : string)
| UpdateAxisLabel (x_axis : bool) (s : string).

Definition apply_op (op : chart_op) (c : ChartData) : ChartData :=
  match op with
  | AddPoint => addPoint c
  | RemovePoint i => removePoint i c
  | ToggleType => toggleType c
  | UpdateTitle s => updateTitle s c
  | UpdateAxisLabel x s => updateAxisLabel x s c
  end.

Definition apply_ops (ops : list chart_op) (c : ChartData) : ChartData :=
  fold_left (fun c op => apply_op op c) ops c.

End Chart.

(* ------------------------------------------------------------------ *)
(** ** Pagination loop of [exportToPDF] ([ProjectView.tsx]) *)

Module Pagination.

(** The source rectangle of one page slice, in canvas pixels. *)
Record slice : Type := mkSlice {
  sourceY : jsnum;
  sliceHeight : jsnum
}.

(** The [while (heightLeftPx > 0)] loop in double arithmetic, one
    iteration per unit of [fuel]; [None] means the fuel ran out before the
    loop exited.  Each iteration emits the source rectangle of one page
    slice. *)
Fixpoint slice_loop (fuel : nat) (pxPerPage heightLeftPx srcY : jsnum) (pageNum : nat)
  : option (list slice) :=
  match fuel with
  | O => None
  | S f =>
      if PrimFloat.ltb 0 heightLeftPx then
        let currentSliceHeightPx := js_min heightLeftPx pxPerPage in
        let sl := mkSlice srcY currentSliceHeightPx in
        let pageNum' := S pageNum in
        if 20 <? pageNum' then Some [sl]   (* if (pageNum > 20) break *)
        else
          match slice_loop f pxPerPage (heightLeftPx - currentSliceHeightPx)%float
                           (srcY + currentSliceHeightPx)%float pageNum' with
          | Some s => Some (sl :: s)
          | None => None
          end
      else Some []
  end.

(** The loop started on a canvas of height [height]: [sourceY = 0],
    [pageNum = 0].  Twenty-one iterations are enough for the loop to exit
    on its own (see [slice_loop_terminates]). *)
Definition paginate (pxPerPage : jsnum) (height : N) : option (list slice) :=
  slice_loop 21 pxPerPage (ulong height) 0%float 0.

End Pagination.

(* ------------------------------------------------------------------ *)
(** ** Export orchestration ([exportToPDF]) *)

Module PdfExport.
Import Pagination.

Record Note : Type := mkNote {
  note_title : string;
  note_date : string;
  note_content : string
}.

(** The canvas produced by [html2canvas]; its width and height are
    [unsigned long] attributes. *)
Record Canvas : Type := mkCanvas {
  canvas_width : N;
  canvas_height : N
}.

(** What is rendered into the off-screen container. *)
Inductive raster_input : Type :=
| CoverHtml
| NoteHtml (n : Note).

Inductive pdf_image : Type :=
| CoverImage
| SliceImage (note_index : nat) (sl : slice).

(** The browser and library calls of [exportToPDF] that may fail:
    [html2canvas] resolves to a canvas or rejects with a message,
    [getContext('2d')] on the slice canvas may return [null], and
    [toDataURL] or [addImage] may throw on an image. *)
Record Env : Type := mkEnv {
  html2canvas : raster_input -> Canvas + string;
  getContext : nat -> slice -> bool;
  image_error : pdf_image -> option string
}.

(** The pages of the jsPDF document, the current (last) page first. *)
Definition pdf_state := list (list pdf_image).

Definition addPage (st : pdf_state) : pdf_state := [] :: st.

Definition addImage (img : pdf_image) (st : pdf_state) : pdf_state :=
  match st with
  | p :: ps => (p ++ [img]) :: ps
  | [] => [[img]]
  end.

(** [new jsPDF('p', 'mm', 'a4')]: the A4 format is 595.28 x 841.89 pt,
    and [getWidth()] and [getHeight()] divide it by the scale factor
    [72 / 25.4] of the unit mm. *)
Definition scaleFactor : jsnum := (72 / 25.4)%float.
Definition pageWidth : jsnum := (595.28 / scaleFactor)%float.
Definition pageHeight : jsnum := (841.89 / scaleFactor)%float.
Definition margin : jsnum := 10%float.
Definition imgWidth : jsnum := (pageWidth - margin * 2)%float.
Definition pageContentHeight : jsnum := (pageHeight - margin * 2)%float.

(** [(pageContentHeight * canvas.width) / imgWidth] *)
Definition pxPerPage (c : Canvas) : jsnum :=
  (pageContentHeight * ulong (canvas_width c) / imgWidth)%float.

(** Body of the slicing loop on the PDF: every slice after the first
    starts a new page; the slice image is added only when the 2d context
    exists; [inr msg] is an exception thrown by [toDataURL] or
    [addImage]. *)
Fixpoint add_slices (env : Env) (i pageNum : nat) (s : list slice) (st : pdf_state)
  : pdf_state + string :=
  match s with
  | [] => inl st
  | sl :: s' =>
      let st := if pageNum =? 0 then st else addPage st in
      if getContext env i sl then
        match image_error env (SliceImage i sl) with
        | Some msg => inr msg
        | None => add_slices env i (S pageNum) s' (addImage (SliceImage i sl) st)
        end
      else add_slices env i (S pageNum) s' st
  end.

(** One iteration of the [for] loop over the notes. *)
Definition add_note (env : Env) (i : nat) (note : Note) (st : pdf_state)
  : pdf_state + string :=
  let st := addPage st in
  match html2canvas env (NoteHtml note) with
  | inr msg => inr msg
  | inl c =>
      match slice_loop 21 (pxPerPage c) (ulong (canvas_height c)) 0%float 0 with
      | Some s => add_slices env i 0 s st
      | None => inl st
      end
  end.

(** The [for] loop over the notes, with body [add_one]; an exception
    leaves the loop. *)
Fixpoint add_notes (add_one : nat -> Note -> pdf_state -> pdf_state + string) (i : nat)
  (notes : list Note) (st : pdf_state) : pdf_state + string :=
  match notes with
  | [] => inl st
  | n :: ns =>
      match add_one i n st with
      | inl st' => add_notes add_one (S i) ns st'
      | inr msg => inr msg
      end
  end.

(** What the user sees: an error message set with [setError], or the
    saved PDF with its pages. *)
Inductive export_outcome : Type :=
| ExportError (msg : string)
| ExportSaved (filename : string) (pages : list (list pdf_image)).

(** The message set in the [catch] block: [err.message || 'Unknown error']. *)
Definition failure_message (message : string) : string :=
  ("Failed to export PDF: " ++ (if String.eqb message "" then "Unknown error" else message)
   ++ ". Check console for details.")%string.

(** [exportToPDF]: the cover image, then the pages of every note; an
    exception of the [try] block is reported by the [catch] block and no
    file is saved. *)
Definition exportToPDF (env : Env) (project_name : string) (notes : list Note)
  : export_outcome :=
  if List.length notes =? 0 then ExportError "No notes to export."%string
  else
    match html2canvas env CoverHtml with
    | inr msg => ExportError (failure_message msg)
    | inl _ =>
        match image_error env CoverImage with
        | Some msg => ExportError (failure_message msg)
        | None =>
            match add_notes (add_note env) 0 notes (addImage CoverImage [[]]) with
            | inl st => ExportSaved (project_name ++ "_Research_Report.pdf")%string (rev st)
            | inr msg => ExportError (failure_message msg)
            end
        end
    end.

End PdfExport.

(* ------------------------------------------------------------------ *)
(** ** [JSON.stringify] and [JSON.parse] *)

(** JavaScript values as produced by [JSON.parse]; an object is the list
    of its own properties in order.  Strings are byte strings (code units
    below 256), as everywhere in this development. *)
Inductive jsval : Type :=
| JNull
| JBool (b : bool)
| JNumber (n : jsnum)
| JString (s : string)
| JArray (l : list jsval)
| JObject (m : list (string * jsval)).

Module Json.

Definition chr (n : nat) : ascii := ascii_of_nat n.
Definition dq : ascii := chr 34.
Definition bs : ascii := chr 92.

(** The two number conversions of the ECMAScript specification that the
    JSON functions call are parameters: [number_to_string] is
    [Number::toString(x, 10)], and [string_to_number] maps a JSON number
    literal to the double nearest to its mathematical value.  What
    follows holds for any such pair; the results that need the round trip
    [string_to_number (number_to_string x) = x] state it as a
    hypothesis. *)
Section Numbers.
Variable number_to_string : jsnum -> string.
Variable string_to_number : string -> jsnum.

Definition hex_digit (n : nat) : ascii :=
  if n <? 10 then chr (48 + n) else chr (87 + n).

(** [QuoteJSONString]: the escape of one code unit. *)
Definition escape_char (c : ascii) : string :=
  let n := nat_of_ascii c in
  if n =? 34 then String bs (String dq "")
  else if n =? 92 then String bs (String bs "")
  else if n =? 8 then String bs "b"
  else if n =? 12 then String bs "f"
  else if n =? 10 then String bs "n"
  else if n =? 13 then String bs "r"
  else if n =? 9 then String bs "t"
  else if n <? 32 then
    String bs ("u00" ++ String (hex_digit (n / 16)) (String (hex_digit (n mod 16)) ""))
  else String c "".

Fixpoint escape_str (s : string) : string :=
  match s with
  | EmptyString => EmptyString
  | String c s' => escape_char c ++ escape_str s'
  end.

Definition quote (s : string) : string := String dq (escape_str s ++ String dq "").

(** Elements after the first one, then the closing bracket. *)
Fixpoint elems_str (f : jsval -> string) (l : list jsval) : string :=
  match l with
  | [] => "]"
  | y :: l' => "," ++ f y ++ elems_str f l'
  end.

Fixpoint members_str (f : jsval -> string) (m : list (string * jsval)) : string :=
  match m with
  | [] => "}"
  | (k, y) :: m' => "," ++ quote k ++ ":" ++ f y ++ members_str f m'
  end.

(** [JSON.stringify] without indentation: a finite number is written by
    [Number::toString], a non-finite one as [null]. *)
Fixpoint stringify (v : jsval) : string :=
  match v with
  | JNull => "null"
  | JBool true => "true"
  | JBool false => "false"
  | JNumber x => if PrimFloat.is_finite x then number_to_string x else "null"
  | JString s => quote s
  | JArray [] => "[]"
  | JArray (x :: l) => "[" ++ stringify x ++ elems_str stringify l
  | JObject [] => "{}"
  | JObject ((k, x) :: m) => "{" ++ quote k ++ ":" ++ stringify x ++ members_str stringify m
  end.

(** *** The parser *)

Definition is_ws (c : ascii) : bool :=
  let n := nat_of_ascii c in (n =? 32) || (n =? 9) || (n =? 10) || (n =? 13).

Fixpoint skip_ws (s : string) : string :=
  match s with
  | String c s' => if is_ws c then skip_ws s' else s
  | EmptyString => EmptyString
  end.

Definition is_digit (c : ascii) : bool :=
  let n := nat_of_ascii c in (48 <=? n) && (n <=? 57).

Definition hex_val (c : ascii) : option nat :=
  let n := nat_of_ascii c in
  if (48 <=? n) && (n <=? 57) then Some (n - 48)
  else if (97 <=? n) && (n <=? 102) then Some (n - 87)
  else if (65 <=? n) && (n <=? 70) then Some (n - 55)
  else None.

(** The character of a one-letter escape [\x]. *)
Definition simple_escape (n : nat) : option ascii :=
  if n =? 34 then Some dq
  else if n =? 92 then Some bs
  else if n =? 47 then Some (chr 47)
  else if n =? 98 then Some (chr 8)
  else if n =? 102 then Some (chr 12)
  else if n =? 110 then Some (chr 10)
  else if n =? 114 then Some (chr 13)
  else if n =? 116 then Some (chr 9)
  else None.

Definition cons_res (c : ascii) (r : option (string * string)) : option (string * string) :=
  match r with
  | Some (t, rest) => Some (String c t, rest)
  | None => None
  end.

(** The body of a string literal up to its closing quote.  A [\uXXXX]
    escape of a code unit above 255 has no byte-string counterpart and is refused. *)
Fixpoint parse_str (s : string) : option (string * string) :=
  match s with
  | EmptyString => None
  | String c s' =>
      let n := nat_of_ascii c in
      if n =? 34 then Some (EmptyString, s')
      else if n =? 92 then
        match s' with
        | String e s'' =>
            if nat_of_ascii e =? 117 then
              match s'' with
              | String h1 (String h2 (String h3 (String h4 r))) =>
                  match hex_val h1, hex_val h2, hex_val h3, hex_val h4 with
                  | Some a, Some b, Some c3, Some d =>
                      let k := ((a * 16 + b) * 16 + c3) * 16 + d in
                      if k <? 256 then cons_res (chr k) (parse_str r) else None
                  | _, _, _, _ => None
                  end
              | _ => None
              end
            else
              match simple_escape (nat_of_ascii e) with
              | Some c' => cons_res c' (parse_str s'')
              | None => None
              end
        | EmptyString => None
        end
      else if n <? 32 then None
      else cons_res c (parse_str s')
  end.

Fixpoint span_digits (s : string) : string * string :=
  match s with
  | String c s' =>
      if is_digit c then let (d, r) := span_digits s' in (String c d, r)
      else (EmptyString, s)
  | EmptyString => (EmptyString, EmptyString)
  end.

(** *** Number literals: [-? (0 | [1-9][0-9]* ) (. [0-9]+)? ([eE] [+-]? [0-9]+)?] *)

(** The integer part. *)
Definition lex_int (s : string) : option (string * string) :=
  match s with
  | String c s' =>
      if nat_of_ascii c =? 48 then Some (String c EmptyString, s')
      else if is_digit c then let (ds, r) := span_digits s' in Some (String c ds, r)
      else None
  | EmptyString => None
  end.

(** The optional fraction. *)
Definition lex_frac (s : string) : option (string * string) :=
  match s with
  | String c s' =>
      if nat_of_ascii c =? 46 then
        match span_digits s' with
        | (EmptyString, _) => None
        | (ds, r) => Some (String c ds, r)
        end
      else Some (EmptyString, s)
  | EmptyString => Some (EmptyString, EmptyString)
  end.

(** The optional sign of an exponent. *)
Definition lex_sign (s : string) : string * string :=
  match s with
  | String c s' =>
      if (nat_of_ascii c =? 43) || (nat_of_ascii c =? 45) then (String c EmptyString, s')
      else (EmptyString, s)
  | EmptyString => (EmptyString, EmptyString)
  end.

(** The optional exponent. *)
Definition lex_exp (s : string) : option (string * string) :=
  match s with
  | String c s' =>
      if (nat_of_ascii c =? 101) || (nat_of_ascii c =? 69) then
        let (sg, s2) := lex_sign s' in
        match span_digits s2 with
        | (EmptyString, _) => None
        | (ds, r) => Some (String c (sg ++ ds)%string, r)
        end
      else Some (EmptyString, s)
  | EmptyString => Some (EmptyString, EmptyString)
  end.

(** The number literal at the head of [s] and the text after it; [None]
    when [s] does not start with one. *)
Definition lex_number (s : string) : option (string * string) :=
  let (m, s1) := match s with
                 | String c s' => if nat_of_ascii c =? 45 then (String c EmptyString, s')
                                  else (EmptyString, s)
                 | EmptyString => (EmptyString, EmptyString)
                 end in
  match lex_int s1 with
  | None => None
  | Some (i, s2) =>
      match lex_frac s2 with
      | None => None
      | Some (f, s3) =>
          match lex_exp s3 with
          | None => None
          | Some (e, s4) => Some ((m ++ i ++ f ++ e)%string, s4)
          end
      end
  end.

Definition parse_number (s : string) : option (jsval * string) :=
  match lex_number s with
  | Some (tok, r) => Some (JNumber (string_to_number tok), r)
  | None => None
  end.

(** [JSON.parse] keeps the last value of a repeated key, at the place of
    its first occurrence. *)
Fixpoint obj_insert (k : string) (v : jsval) (m : list (string * jsval))
  : list (string * jsval) :=
  match m with
  | [] => [(k, v)]
  | (k', v') :: m' =>
      if String.eqb k k' then (k, v) :: m' else (k', v') :: obj_insert k v m'
  end.

(** One unit of [fuel] per call; [parse_elems] and [parse_members]
    carry the elements read so far. *)
Fixpoint parse_value (fuel : nat) (s : string) : option (jsval * string) :=
  match fuel with
  | O => None
  | S f =>
      match skip_ws s with
      | EmptyString => None
      | String c s' =>
          let n := nat_of_ascii c in
          if n =? 91 then
            match skip_ws s' with
            | String c' s'' =>
                if nat_of_ascii c' =? 93 then Some (JArray [], s'')
                else parse_elems f [] s'
            | EmptyString => None
            end
          else if n =? 123 then
            match skip_ws s' with
            | String c' s'' =>
                if nat_of_ascii c' =? 125 then Some (JObject [], s'')
                else parse_members f [] s'
            | EmptyString => None
            end
          else if n =? 34 then
            match parse_str s' with
            | Some (t, r) => Some (JString t, r)
            | None => None
            end
          else if n =? 110 then
            match s' with
            | String "u"%char (String "l"%char (String "l"%char r)) => Some (JNull, r)
            | _ => None
            end
          else if n =? 116 then
            match s' with
            | String "r"%char (String "u"%char (String "e"%char r)) => Some (JBool true, r)
            | _ => None
            end
          else if n =? 102 then
            match s' with
            | String "a"%char (String "l"%char (String "s"%char (String "e"%char r))) =>
                Some (JBool false, r)
            | _ => None
            end
          else parse_number (String c s')
      end
  end
with parse_elems (fuel : nat) (acc : list jsval) (s : string) : option (jsval * string) :=
  match fuel with
  | O => None
  | S f =>
      match parse_value f s with
      | Some (v, r) =>
          match skip_ws r with
          | String c r' =>
              if nat_of_ascii c =? 44 then parse_elems f (acc ++ [v]) r'
              else if nat_of_ascii c =? 93 then Some (JArray (acc ++ [v]), r')
              else None
          | EmptyString => None
          end
      | None => None
      end
  end
with parse_members (fuel : nat) (acc : list (string * jsval)) (s : string)
  : option (jsval * string) :=
  match fuel with
  | O => None
  | S f =>
      match skip_ws s with
      | String c s1 =>
          if nat_of_ascii c =? 34 then
            match parse_str s1 with
            | Some (k, r1) =>
                match skip_ws r1 with
                | String c2 r2 =>
                    if nat_of_ascii c2 =? 58 then
                      match parse_value f r2 with
                      | Some (v, r3) =>
                          match skip_ws r3 with
                          | String c3 r4 =>
                              if nat_of_ascii c3 =? 44 then
                                parse_members f (obj_insert k v acc) r4
                              else if nat_of_ascii c3 =? 125 then
                                Some (JObject (obj_insert k v acc), r4)
                              else None
                          | EmptyString => None
                          end
                      | None => None
                      end
                    else None
                | EmptyString => None
                end
            | None => None
            end
          else None
      | EmptyString => None
      end
  end.

(** [JSON.parse]: [None] is a thrown [SyntaxError].  Every call of the
    parser consumes a character or is followed by one that does, so
    twice the length of the text bounds the calls. *)
Definition parse (s : string) : option jsval :=
  match parse_value (S (2 * String.length s)) s with
  | Some (v, r) =>
      match skip_ws r with
      | EmptyString => Some v
      | _ => None
      end
  | None => None
  end.

End Numbers.

(** *** Values that [JSON.stringify] writes faithfully *)

Fixpoint keys_nodup (m : list (string * jsval)) : bool :=
  match m with
  | [] => true
  | (k, _) :: m' => negb (existsb (String.eqb k) (map fst m')) && keys_nodup m'
  end.

(** No repeated key in an object. *)
Fixpoint wf (v : jsval) : bool :=
  match v with
  | JArray l => forallb wf l
  | JObject m => keys_nodup m && forallb (fun kv => wf (snd kv)) m
  | _ => true
  end.

(** The numbers of a value, in the order they are written. *)
Fixpoint numbers (v : jsval) : list jsnum :=
  match v with
  | JNumber x => [x]
  | JArray l => flat_map numbers l
  | JObject m => flat_map (fun kv => numbers (snd kv)) m
  | _ => []
  end.

(** A number that [JSON.stringify] writes and [JSON.parse] reads back:
    finite, written as a JSON number literal that is read as the same
    double. *)
Definition number_roundtrip (number_to_string : jsnum -> string)
  (string_to_number : string -> jsnum) (x : jsnum) : Prop :=
  PrimFloat.is_finite x = true /\
  lex_number (number_to_string x) = Some (number_to_string x, EmptyString) /\
  string_to_number (number_to_string x) = x.

End Json.

(* ------------------------------------------------------------------ *)
(** ** Serializer: the JavaScript value of a document, [updateBlocks]
       and the initialisation from [value] *)

Module Serializer.
Import Json.

(** An optional property: [undefined] is left out by [JSON.stringify]. *)
Definition opt_field {A : Type} (k : string) (f : A -> jsval) (o : option A)
  : list (string * jsval) :=
  match o with
  | Some x => [(k, f x)]
  | None => []
  end.

Definition js_strings (l : list string) : jsval := JArray (map JString l).

Definition js_table (t : TableData) : jsval :=
  JObject ([("rows"%string, JArray (map js_strings (rows t)))]
           ++ opt_field "colHeaders"%string js_strings (colHeaders t)
           ++ opt_field "rowHeaders"%string js_strings (rowHeaders t)).

Definition js_point (p : DataPoint) : jsval :=
  JObject [("name"%string, JString (pname p)); ("value"%string, JNumber (pvalue p))].

Definition chart_type_str (t : chart_type) : string :=
  match t with Line => "line" | Bar => "bar" end.

Definition js_chart (c : ChartData) : jsval :=
  JObject ([("type"%string, JString (chart_type_str (ctype c)))]
           ++ opt_field "title"%string JString (title c)
           ++ opt_field "xAxisLabel"%string JString (xAxisLabel c)
           ++ opt_field "yAxisLabel"%string JString (yAxisLabel c)
           ++ [("data"%string, JArray (map js_point (data c)))]).

Definition block_type_str (t : block_type) : string :=
  match t with BText => "text" | BImage => "image" | BTable => "table" | BChart => "chart" end.

Definition js_block (b : Block) : jsval :=
  JObject ([("id"%string, JString (bid b)); ("type"%string, JString (block_type_str (btype b)));
            ("content"%string, JString (content b))]
           ++ opt_field "width"%string JNumber (width b)
           ++ opt_field "tableData"%string js_table (tableData b)
           ++ opt_field "chartData"%string js_chart (chartData b)).

Definition js_doc (d : Document) : jsval := JArray (map js_block d).

(** [onChange(JSON.stringify(newBlocks))] *)
Definition encode (number_to_string : jsnum -> string) (d : Document) : string :=
  stringify number_to_string (js_doc d).

Definition startsWith_bracket (s : string) : bool :=
  match s with
  | String c _ => Ascii.eqb c "["
  | EmptyString => false
  end.

Fixpoint last_char (s : string) : option ascii :=
  match s with
  | EmptyString => None
  | String c EmptyString => Some c
  | String _ s' => last_char s'
  end.

Definition endsWith_bracket (s : string) : bool :=
  match last_char s with
  | Some c => Ascii.eqb c "]"
  | None => false
  end.

(** [[{ id: 'initial', type: 'text', content: value }]] *)
Definition legacy (value : string) : jsval := js_doc [text_block "initial" value].

(** The [useEffect] initialising [blocks] from [value]; [json_parse] is
    [JSON.parse], [None] being a thrown [SyntaxError] (the concrete parser
    is [Json.parse]).  The parsed value is stored as it is. *)
Definition decode (json_parse : string -> option jsval) (value : string) : jsval :=
  if startsWith_bracket value && endsWith_bracket value then
    match json_parse value with
    | Some v => v
    | None => legacy value
    end
  else legacy value.

(** The numbers of a document: image widths and chart values, in the
    order [JSON.stringify] writes them. *)
Definition block_numbers (b : Block) : list jsnum :=
  match width b with Some w => [w] | None => [] end ++
  match chartData b with
  | Some c => map pvalue (data c)
  | None => []
  end.

Definition doc_numbers (d : Document) : list jsnum := flat_map block_numbers d.

End Serializer.

(* ------------------------------------------------------------------ *)
(** ** Reading stored notes back ([ProjectView.tsx]) *)

Module Views.
Import Json Serializer PdfExport.
Local Open Scope string_scope.

(** [String.prototype.toLowerCase] on a code unit below 256: [A-Z] and
    the Latin-1 capitals [U+00C0 .. U+00DE] other than [U+00D7]. *)
Definition lower_char (c : ascii) : ascii :=
  let n := nat_of_ascii c in
  if (Nat.leb 65 n && Nat.leb n 90) || (Nat.leb 192 n && Nat.leb n 222 && negb (Nat.eqb n 215))
  then ascii_of_nat (n + 32) else c.

Fixpoint toLowerCase (s : string) : string :=
  match s with
  | EmptyString => EmptyString
  | String c s' => String (lower_char c) (toLowerCase s')
  end.

(** [s.includes(pat)] *)
Fixpoint includes (s pat : string) : bool :=
  String.prefix pat s ||
  match s with
  | EmptyString => false
  | String _ s' => includes s' pat
  end.

(** [Number::toString] and [JSON.parse] (see [Json]) are parameters. *)
Section Reading.
Variable number_to_string : jsnum -> string.
Variable json_parse : string -> option jsval.

(** [v.key] on a value from [JSON.parse]: [None] when the read throws
    ([v] is [null]), [Some None] when the property is [undefined]. *)
Definition get (v : jsval) (k : string) : option (option jsval) :=
  match v with
  | JNull => None
  | JObject m => Some (option_map snd (find (fun kv => String.eqb (fst kv) k) m))
  | _ => Some None
  end.

(** A read on a value already known not to be [null]. *)
Definition prop (v : jsval) (k : string) : option jsval :=
  match get v k with
  | Some x => x
  | None => None
  end.

(** [b.type === t]; [None] when [b] is [null] and the read throws. *)
Definition type_is (t : string) (b : jsval) : option bool :=
  match get b "type" with
  | None => None
  | Some (Some (JString s)) => Some (String.eqb s t)
  | Some _ => Some false
  end.

(** [Array.prototype.join] on array elements: [null] gives the empty
    string. *)
Fixpoint join_vals (f : jsval -> string) (sep : string) (l : list jsval) : string :=
  match l with
  | [] => ""
  | [x] => match x with JNull => "" | _ => f x end
  | x :: l' => (match x with JNull => "" | _ => f x end) ++ sep ++ join_vals f sep l'
  end.

(** [String(v)], as in a template literal. *)
Fixpoint to_str (v : jsval) : string :=
  match v with
  | JNull => "null"
  | JBool true => "true"
  | JBool false => "false"
  | JNumber x => number_to_string x
  | JString s => s
  | JArray l => join_vals to_str "," l
  | JObject _ => "[object Object]"
  end.

(** [Array.prototype.join] on the results of a [map]: [null] and
    [undefined] give the empty string. *)
Definition join_part (o : option jsval) : string :=
  match o with
  | Some JNull | None => ""
  | Some v => to_str v
  end.

Fixpoint join (sep : string) (l : list (option jsval)) : string :=
  match l with
  | [] => ""
  | [x] => join_part x
  | x :: l' => join_part x ++ sep ++ join sep l'
  end.

(** [blocks.map((b: any) => b.type === 'text' ? b.content : '')];
    [None] when an element is [null] and the map throws. *)
Fixpoint text_parts (bl : list jsval) : option (list (option jsval)) :=
  match bl with
  | [] => Some []
  | b :: bl' =>
      match type_is "text" b with
      | None => None
      | Some is_text =>
          option_map (cons (if is_text then prop b "content" else Some (JString "")))
                     (text_parts bl')
      end
  end.

(** [contentText] in the [filteredNotes] callback: a thrown exception is
    caught and leaves [contentText = n.content]. *)
Definition contentText (content : string) : string :=
  if startsWith_bracket content && endsWith_bracket content then
    match json_parse content with
    | Some (JArray bl) =>
        match text_parts bl with
        | Some parts => join " " parts
        | None => content
        end
    | _ => content
    end
  else content.

(** The callback of [notes.filter] in [filteredNotes]. *)
Definition note_matches (search : string) (n : Note) : bool :=
  let searchLower := toLowerCase search in
  let titleMatch := includes (toLowerCase (note_title n)) searchLower in
  let contentMatch := includes (toLowerCase (contentText (note_content n))) searchLower in
  titleMatch || contentMatch.

(** [filteredNotes] *)
Definition filteredNotes (search : string) (notes : list Note) : list Note :=
  filter (note_matches search) notes.

End Reading.

End Views.

(* ------------------------------------------------------------------ *)
(** ** Checklists ([ProjectView.tsx]) *)

Module Checklists.
Import Views.
Local Open Scope string_scope.

Record ChecklistItem : Type := mkItem {
  item_id : Z;
  item_text : string;
  completed : Z
}.

Record Checklist : Type := mkChecklist {
  cl_id : Z;
  cl_title : string;
  items : list ChecklistItem
}.

(** [String.prototype.trim] on code units below 256: tab, line feed,
    vertical tab, form feed, carriage return, space and no-break space. *)
Definition is_js_ws (c : ascii) : bool :=
  let n := nat_of_ascii c in
  Nat.eqb n 9 || Nat.eqb n 10 || Nat.eqb n 11 || Nat.eqb n 12 || Nat.eqb n 13 ||
  Nat.eqb n 32 || Nat.eqb n 160.

Fixpoint trim_start (s : string) : string :=
  match s with
  | String c s' => if is_js_ws c then trim_start s' else s
  | EmptyString => EmptyString
  end.

Fixpoint trim_end (s : string) : string :=
  match s with
  | EmptyString => EmptyString
  | String c s' =>
      match trim_end s' with
      | EmptyString => if is_js_ws c then EmptyString else String c EmptyString
      | r => String c r
      end
  end.

Definition trim (s : string) : string := trim_end (trim_start s).

(** What [handleAddItem] does: nothing, reject a duplicate (the error
    message quotes [text]), or send the insert request. *)
Inductive add_item_outcome : Type :=
| AddNothing
| AddDuplicate (text : string)
| AddInsert (checklist_id : Z) (text : string).

(** [handleAddItem]; [entry] is [newItemText[checklistId]], [None] when
    it is [undefined]. *)
Definition handleAddItem (checklists : list Checklist) (entry : option string)
  (checklistId : Z) : add_item_outcome :=
  match option_map trim entry with
  | None => AddNothing
  | Some text =>
      if String.eqb text "" then AddNothing
      else
        match find (fun cl => Z.eqb (cl_id cl) checklistId) checklists with
        | Some cl =>
            if existsb (fun item => String.eqb (toLowerCase (item_text item)) (toLowerCase text))
                       (items cl)
            then AddDuplicate text
            else AddInsert checklistId text
        | None => AddInsert checklistId text
        end
  end.

(** [cl.items.filter(i => i.completed).length] *)
Definition completed_count (cl : Checklist) : nat :=
  List.length (filter (fun i => negb (Z.eqb (completed i) 0)) (items cl)).

(** [total > 0 ? (completed / total) * 100 : 0], in exact arithmetic. *)
Definition progress (cl : Checklist) : Q :=
  let total := List.length (items cl) in
  if Nat.ltb 0 total
  then (inject_Z (Z.of_nat (completed_count cl)) / inject_Z (Z.of_nat total)) * 100
  else 0.

End Checklists.


(* ------------------------------------------------------------------ *)
(** ** Saving a note ([ProjectView]) *)

Module NoteSave.
Local Open Scope string_scope.

(** The [Partial<Note>] being edited; [None] fields are [undefined]. *)
Record NoteDraft : Type := mkDraft {
  draft_id : option Z;
  draft_title : option string;
  draft_content : option string;
  draft_date : option string
}.

(** The [noteData] object sent to the [notes] table. *)
Record NoteRow : Type := mkNoteRow {
  row_title : string;
  row_content : string;
  row_project_id : Z;
  row_date : string
}.

(** What [handleSaveNote] does: nothing, an insert or an update at an id. *)
Inductive save_request : Type :=
| SaveNothing
| SaveInsert (row : NoteRow)
| SaveUpdate (id : Z) (row : NoteRow).

(** [handleSaveNote]; [today] is [new Date().toISOString().split('T')[0]]. *)
Definition handleSaveNote (editingNote : option NoteDraft) (projectId : Z) (today : string)
  : save_request :=
  match editingNote with
  | None => SaveNothing
  | Some n =>
      match draft_title n, draft_content n with
      | Some t, Some c =>
          if String.eqb t "" || String.eqb c "" then SaveNothing
          else
            let date := match draft_date n with
                        | Some d => if String.eqb d "" then today else d
                        | None => today
                        end in
            let noteData := mkNoteRow t c projectId date in
            match draft_id n with
            | Some i => if Z.eqb i 0 then SaveInsert noteData else SaveUpdate i noteData
            | None => SaveInsert noteData
            end
      | _, _ => SaveNothing
      end
  end.

End NoteSave.

(* ------------------------------------------------------------------ *)
(** ** Specification helpers *)

(** The document is exactly one text block. *)
Definition single_text (blocks : Document) : bool :=
  match blocks with
  | [b] => block_type_eqb (btype b) BText
  | _ => false
  end.

Definition has_id (id : string) (blocks : Document) : bool :=
  existsb (fun b => String.eqb (bid b) id) blocks.

(* ================================================================== *)
(** * Properties *)

(** ** Generic list facts *)

Lemma remove_at_length {A : Type} (i : nat) (l : list A) :
  List.length (remove_at i l) =
  if i <? List.length l then List.length l - 1 else List.length l.
Proof.
  revert i; induction l as [|x l IH]; intros [|i]; simpl; try reflexivity.
  - clear IH. lia.
  - rewrite IH. change (S i <? S (List.length l)) with (i <? List.length l).
    destruct (i <? List.length l) eqn:E.
    + apply Nat.ltb_lt in E. lia.
    + reflexivity.
Qed.

Lemma remove_at_Forall {A : Type} (P : A -> Prop) (i : nat) (l : list A) :
  Forall P l -> Forall P (remove_at i l).
Proof.
  revert i; induction l as [|x l IH]; intros [|i] H; simpl; auto.
  - inversion H; auto.
  - inversion H; subst. constructor; auto.
Qed.

Lemma Forall_map_intro {A B : Type} (f : A -> B) (P : B -> Prop) (Q : A -> Prop)
  (l : list A) :
  (forall x, Q x -> P (f x)) -> Forall Q l -> Forall P (map f l).
Proof.
  intros HPQ H. induction H; simpl; constructor; auto.
Qed.

Lemma remove_at_length_ge {A : Type} (i : nat) (l : list A) :
  List.length l - 1 <= List.length (remove_at i l).
Proof.
  rewrite remove_at_length. destruct (i <? List.length l); lia.
Qed.

(** ** Block store *)

Module BlockStoreFacts.
Import Editor.

Definition img_b : Block := mkBlock "b" BImage "data:image/png;base64,AA" (Some 100%float) None None.

(** C1 (counterexample): a document made of a single image block becomes
    empty when that block is removed, so [removeBlock] does not always
    return a non-empty document. *)
Lemma removeBlock_sole_image_empties :
  removeBlock 0 [img_b] "b" = Some [] /\
  ~ (forall now blocks id blocks',
       blocks <> [] -> removeBlock now blocks id = Some blocks' -> blocks' <> []).
Proof.
  split; [reflexivity|].
  intros H. apply (H 0%N [img_b] "b"%string []); [discriminate | reflexivity | reflexivity].
Qed.

(** C1 (amended): on a non-empty document, [removeBlock] replaces a
    document made of one text block by a fresh empty text block, whatever
    the id, and otherwise filters out the blocks with that id, keeping the
    order of the others. *)
Theorem removeBlock_spec (now : N) (blocks : Document) (id : string) :
  blocks <> [] ->
  removeBlock now blocks id =
  Some (if single_text blocks then [text_block (N_str now) ""]
        else filter (fun b => negb (String.eqb (bid b) id)) blocks).
Proof.
  intros Hne.
  destruct blocks as [|b [|b2 rest]]; [congruence| |reflexivity].
  unfold removeBlock, single_text; simpl.
  destruct (btype b); reflexivity.
Qed.

Lemma removeBlock_spec_witness :
  [text_block "a" "notes"] <> [] /\
  removeBlock 7 [text_block "a" "notes"] "a" =
  Some (if single_text [text_block "a" "notes"] then [text_block (N_str 7) ""]
        else filter (fun b => negb (String.eqb (bid b) "a")) [text_block "a" "notes"]).
Proof.
  split; [discriminate|].
  apply (removeBlock_spec 7 [text_block "a" "notes"] "a"). discriminate.
Defined.

Definition txt_a : Block := text_block "a" "hello".

(** C7 (counterexample): [handleTextChange] rewrites the content of an
    image block, and [removeBlock] with an absent id on a one-text-block
    document resets that block. *)
Lemma invalid_target_not_noop :
  handleTextChange [img_b] "b" "typed" <> [img_b] /\
  removeBlock 5 [txt_a] "zzz" = Some [text_block "5" ""] /\
  removeBlock 5 [txt_a] "zzz" <> Some [txt_a].
Proof.
  split; [|split]; [discriminate | reflexivity | discriminate].
Qed.

Lemma map_update_absent (f : Block -> Block) (id : string) (blocks : Document) :
  has_id id blocks = false ->
  map (fun b => if String.eqb (bid b) id then f b else b) blocks = blocks.
Proof.
  induction blocks as [|b bs IH]; simpl; intros H; [reflexivity|].
  apply orb_false_iff in H as [H1 H2].
  rewrite H1, IH by exact H2. reflexivity.
Qed.

Lemma filter_absent (id : string) (blocks : Document) :
  has_id id blocks = false ->
  filter (fun b => negb (String.eqb (bid b) id)) blocks = blocks.
Proof.
  induction blocks as [|b bs IH]; simpl; intros H; [reflexivity|].
  apply orb_false_iff in H as [H1 H2].
  rewrite H1, IH by exact H2. reflexivity.
Qed.

(** C7 (amended): the four update handlers leave a document without the
    given id unchanged; [handleTextChange] keeps the length and the order
    of any document and rewrites the content of every block with the id,
    whatever its type, leaving the other blocks as they are; [removeBlock] with an absent id leaves a
    non-empty document unchanged unless it is a single text block, which is
    replaced by a fresh empty text block.  None of them fails. *)
Theorem invalid_target_spec :
  (forall blocks id c, has_id id blocks = false -> handleTextChange blocks id c = blocks) /\
  (forall blocks id w, has_id id blocks = false -> handleImageResize blocks id w = blocks) /\
  (forall blocks id t, has_id id blocks = false -> handleTableChange blocks id t = blocks) /\
  (forall blocks id c, has_id id blocks = false -> handleChartChange blocks id c = blocks) /\
  (forall blocks id c,
     List.length (handleTextChange blocks id c) = List.length blocks /\
     forall i b, nth_error blocks i = Some b ->
       nth_error (handleTextChange blocks id c) i =
       Some (if String.eqb (bid b) id then set_content b c else b)) /\
  (forall now blocks id, blocks <> [] -> has_id id blocks = false ->
     removeBlock now blocks id =
     Some (if single_text blocks then [text_block (N_str now) ""] else blocks)).
Proof.
  split; [intros; apply map_update_absent; assumption|].
  split; [intros; apply map_update_absent; assumption|].
  split; [intros; apply map_update_absent; assumption|].
  split; [intros; apply map_update_absent; assumption|].
  split.
  - intros blocks id c. unfold handleTextChange. split.
    + apply length_map.
    + intros i b Hi. rewrite nth_error_map, Hi. reflexivity.
  - intros now blocks id Hne Habs.
    rewrite (removeBlock_spec now blocks id Hne), filter_absent by exact Habs.
    reflexivity.
Qed.

Lemma invalid_target_spec_witness :
  has_id "zzz" [txt_a; img_b] = false /\
  removeBlock 3 [txt_a; img_b] "zzz" = Some [txt_a; img_b] /\
  handleTextChange [txt_a; img_b] "zzz" "x" = [txt_a; img_b].
Proof.
  destruct invalid_target_spec as [Ht [_ [_ [_ [_ Hr]]]]].
  split; [reflexivity|]. split.
  - rewrite (Hr 3%N [txt_a; img_b] "zzz"%string); [reflexivity | discriminate | reflexivity].
  - apply Ht. reflexivity.
Defined.

End BlockStoreFacts.

(** ** Table blocks *)

Module TableFacts.
Import Table.

Lemma addRow_rectangular (t : TableData) :
  rectangular t -> rectangular (addRow t).
Proof.
  intros [n [Hn [Hr [Hf [Hc Hrh]]]]].
  destruct t as [rs ch rh]; simpl in *.
  destruct rs as [|r0 rs']; [simpl in Hr; lia|].
  inversion Hf as [|? ? Hr0 Hf']; subst.
  exists (List.length r0). unfold addRow; simpl.
  replace (match List.length r0 with 0 => 1 | S n0 => S n0 end) with (List.length r0)
    by (destruct (List.length r0); lia).
  repeat split; auto.
  - lia.
  - constructor; [reflexivity|]. apply Forall_app. split; [assumption|].
    constructor; [apply repeat_length | constructor].
  - intros h Hh. destruct rh as [h0|]; simpl in Hh; [|discriminate].
    injection Hh as <-. rewrite !length_app. simpl.
    rewrite (Hrh h0 eq_refl). simpl. lia.
Qed.

Lemma removeRow_rectangular (i : nat) (t : TableData) :
  rectangular t -> rectangular (removeRow i t).
Proof.
  intros Ht. unfold removeRow.
  destruct (1 <? List.length (rows t)) eqn:E; [|exact Ht].
  apply Nat.ltb_lt in E.
  destruct Ht as [n [Hn [Hr [Hf [Hc Hrh]]]]].
  exists n; simpl. repeat split; auto.
  - pose proof (remove_at_length_ge i (rows t)). lia.
  - apply remove_at_Forall; assumption.
  - intros h Hh. destruct (rowHeaders t) as [h0|] eqn:Eh; simpl in Hh; [|discriminate].
    injection Hh as <-. rewrite !remove_at_length, (Hrh h0 eq_refl). reflexivity.
Qed.

Lemma addColumn_rectangular (t t' : TableData) :
  rectangular t -> addColumn t = Some t' -> rectangular t'.
Proof.
  intros [n [Hn [Hr [Hf [Hc Hrh]]]]] Ht'.
  destruct t as [rs ch rh]; simpl in *.
  destruct rs as [|r0 rs']; [simpl in Hr; lia|].
  inversion Hf as [|? ? Hr0 Hf']; subst.
  assert (Hrows : Forall (fun r => List.length r = S (List.length r0))
                    (map (fun r => r ++ [""%string]) (r0 :: rs'))).
  { apply Forall_map_intro with (Q := fun r => List.length r = List.length r0);
      [intros r Hr'; rewrite length_app, Hr'; simpl; lia | exact Hf]. }
  unfold addColumn in Ht'; simpl in Ht'.
  destruct ch as [h|]; injection Ht' as <-;
    exists (S (List.length r0)); simpl; repeat split; auto; try lia.
  - intros h' Hh'. injection Hh' as <-. rewrite length_app, (Hc h eq_refl). simpl. lia.
  - intros h' Hh'. rewrite length_map. apply Hrh; assumption.
  - intros h' Hh'. discriminate.
  - intros h' Hh'. rewrite length_map. apply Hrh; assumption.
Qed.

Lemma removeColumn_rectangular (i : nat) (t t' : TableData) :
  rectangular t -> removeColumn i t = Some t' -> rectangular t'.
Proof.
  intros Ht Ht'.
  destruct Ht as [n [Hn [Hr [Hf [Hc Hrh]]]]].
  destruct t as [rs ch rh]; simpl in *.
  unfold removeColumn in Ht'; simpl in Ht'.
  destruct rs as [|r0 rs']; [simpl in Hr; lia|].
  inversion Hf as [|? ? Hr0 Hf']; subst.
  destruct (1 <? List.length r0) eqn:E.
  - apply Nat.ltb_lt in E. injection Ht' as <-.
    exists (if i <? List.length r0 then List.length r0 - 1 else List.length r0).
    simpl. repeat split.
    + destruct (i <? List.length r0); lia.
    + lia.
    + change (remove_at i r0 :: map (remove_at i) rs') with (map (remove_at i) (r0 :: rs')).
      apply Forall_map_intro with (Q := fun r => List.length r = List.length r0);
        [intros r Hr'; rewrite remove_at_length, Hr'; reflexivity | exact Hf].
    + intros h Hh. destruct ch as [h0|]; simpl in Hh; [|discriminate].
      injection Hh as <-. rewrite remove_at_length, (Hc h0 eq_refl). reflexivity.
    + intros h Hh. rewrite length_map. apply Hrh; assumption.
  - injection Ht' as <-. exists (List.length r0).
    repeat split; auto.
Qed.

Lemma apply_op_rectangular (op : table_op) (t : TableData) :
  rectangular t -> exists t', apply_op op t = Some t' /\ rectangular t'.
Proof.
  intros Ht. destruct op as [| |i|i]; simpl.
  - eexists; split; [reflexivity|]. apply addRow_rectangular; assumption.
  - destruct (addColumn t) as [t'|] eqn:E.
    + exists t'. split; [reflexivity|]. eapply addColumn_rectangular; eassumption.
    + exfalso. destruct Ht as [n [Hn [Hr _]]].
      unfold addColumn in E. destruct (colHeaders t); [|discriminate].
      destruct (rows t); [simpl in Hr; lia | discriminate].
  - eexists; split; [reflexivity|]. apply removeRow_rectangular; assumption.
  - destruct (removeColumn i t) as [t'|] eqn:E.
    + exists t'. split; [reflexivity|]. eapply removeColumn_rectangular; eassumption.
    + exfalso. destruct Ht as [n [Hn [Hr _]]].
      unfold removeColumn in E. destruct (rows t); [simpl in Hr; lia|].
      destruct (1 <? _); discriminate.
Qed.

(** C5: from a rectangular table (at least one row and one column, stored
    header lists matching the counts), every sequence of addRow, addColumn,
    removeRow and removeColumn succeeds and yields a rectangular table;
    removeRow on a one-row table and removeColumn on a table whose rows all
    have one cell change nothing. *)
Theorem table_ops_rectangular :
  (forall ops t, rectangular t ->
     exists t', apply_ops ops t = Some t' /\ rectangular t') /\
  (forall i t, List.length (rows t) = 1 -> removeRow i t = t) /\
  (forall i t, rows t <> [] -> Forall (fun r => List.length r = 1) (rows t) ->
     removeColumn i t = Some t).
Proof.
  split; [|split].
  - induction ops as [|op ops IH]; intros t Ht; simpl.
    + exists t; split; [reflexivity | assumption].
    + destruct (apply_op_rectangular op t Ht) as [t1 [E1 H1]].
      rewrite E1. apply IH; assumption.
  - intros i t H. unfold removeRow. rewrite H. reflexivity.
  - intros i t Hne Hf. unfold removeColumn.
    destruct (rows t) as [|r0 rs]; [congruence|].
    inversion Hf; subst. rewrite H1. reflexivity.
Qed.

Definition grid_2x3 : TableData := Editor.default_table.

Lemma table_ops_rectangular_witness :
  rectangular grid_2x3 /\
  exists t', apply_ops [AddRow; AddColumn; RemoveRow 0; RemoveColumn 2] grid_2x3 = Some t'
             /\ rectangular t'.
Proof.
  assert (H : rectangular grid_2x3).
  { exists 3. repeat split; simpl; try lia.
    - repeat constructor.
    - intros h Hh; injection Hh as <-; reflexivity.
    - intros h Hh; injection Hh as <-; reflexivity. }
  split; [exact H|].
  destruct table_ops_rectangular as [Hops _].
  apply Hops. exact H.
Defined.

(** C6 (counterexample): appending a table stores explicit header lists
    in the new block although no header existed before. *)
Lemma appendTable_stores_headers :
  exists b, In b (Editor.addTableBlock 0 0 [text_block "a" ""]) /\
            ~ In b [text_block "a" ""] /\
            option_map colHeaders (tableData b) = Some (Some ["A"; "B"; "C"]%string) /\
            option_map rowHeaders (tableData b) = Some (Some ["1"; "2"]%string).
Proof.
  eexists. split; [simpl; right; left; reflexivity|].
  split; [simpl; intros [H|H]; [discriminate H | exact H]|].
  split; reflexivity.
Qed.

(** C6 (amended): add-row, add-column, remove-row and remove-column keep an
    absent header list absent and change only the header list that is
    stored; appendTable creates its table with the stored headers A, B, C
    and 1, 2. *)
Theorem header_lists_materialized_only_when_stored :
  (forall t, colHeaders (addRow t) = colHeaders t /\
             (rowHeaders (addRow t) = None <-> rowHeaders t = None)) /\
  (forall t t', addColumn t = Some t' ->
             rowHeaders t' = rowHeaders t /\ (colHeaders t' = None <-> colHeaders t = None)) /\
  (forall i t, colHeaders (removeRow i t) = colHeaders t /\
             (rowHeaders (removeRow i t) = None <-> rowHeaders t = None)) /\
  (forall i t t', removeColumn i t = Some t' ->
             rowHeaders t' = rowHeaders t /\ (colHeaders t' = None <-> colHeaders t = None)) /\
  (forall now1 now2 blocks, exists b,
      Editor.addTableBlock now1 now2 blocks = blocks ++ [b; text_block (N_str (now2 + 1)) ""] /\
      tableData b = Some (mkTable [[""; ""; ""]; [""; ""; ""]]%string
                                  (Some ["A"; "B"; "C"]%string) (Some ["1"; "2"]%string))).
Proof.
  split; [|split; [|split; [|split]]].
  - intros t. unfold addRow; simpl. split; [reflexivity|].
    destruct (rowHeaders t); simpl; split; congruence.
  - intros t t' E. unfold addColumn in E.
    destruct (colHeaders t) as [h|] eqn:Eh.
    + destruct (rows t); [discriminate|]. injection E as <-. simpl.
      split; [reflexivity | split; congruence].
    + injection E as <-. simpl. split; [reflexivity | split; auto].
  - intros i t. unfold removeRow. destruct (1 <? _).
    + simpl. split; [reflexivity|]. destruct (rowHeaders t); simpl; split; congruence.
    + split; [reflexivity | tauto].
  - intros i t t' E. unfold removeColumn in E.
    destruct (rows t); [discriminate|]. destruct (1 <? _).
    + injection E as <-. simpl. split; [reflexivity|].
      destruct (colHeaders t); simpl; split; congruence.
    + injection E as <-. split; [reflexivity | tauto].
  - intros now1 now2 blocks. eexists. split; reflexivity.
Qed.

Lemma header_lists_materialized_only_when_stored_witness :
  exists t', addColumn (mkTable [["x"]]%string None None) = Some t' /\
             rowHeaders t' = None /\ colHeaders t' = None.
Proof.
  destruct header_lists_materialized_only_when_stored as [_ [Hc _]].
  eexists. split; [reflexivity|].
  destruct (Hc (mkTable [["x"]]%string None None) _ eq_refl) as [H1 H2].
  split; [exact H1|]. apply H2. reflexivity.
Defined.

End TableFacts.

(** ** Chart blocks *)

Module ChartFacts.
Import Chart.

Lemma apply_op_nonempty (op : chart_op) (c : ChartData) :
  1 <= List.length (data c) -> 1 <= List.length (data (apply_op op c)).
Proof.
  intros H. destruct op as [|i| |s|x s]; simpl.
  - unfold addPoint; simpl. rewrite length_app. simpl. lia.
  - unfold removePoint. destruct (1 <? List.length (data c)) eqn:E; [|exact H].
    apply Nat.ltb_lt in E. simpl. pose proof (remove_at_length_ge i (data c)). lia.
  - exact H.
  - exact H.
  - unfold updateAxisLabel. destruct x; exact H.
Qed.

(** C9: appendChart adds a line chart with three points (followed by an
    empty text block), addPoint adds one point, removePoint on a one-point
    chart changes nothing, and no sequence of chart edits brings a chart
    with at least one point below one point. *)
Theorem chart_never_empty :
  (forall now1 now2 blocks, exists b cd,
      Editor.addChartBlock now1 now2 blocks = blocks ++ [b; text_block (N_str (now2 + 1)) ""] /\
      btype b = BChart /\ chartData b = Some cd /\ ctype cd = Line /\
      List.length (data cd) = 3) /\
  (forall c, List.length (data (addPoint c)) = S (List.length (data c))) /\
  (forall i c, List.length (data c) = 1 -> removePoint i c = c) /\
  (forall ops c, 1 <= List.length (data c) -> 1 <= List.length (data (apply_ops ops c))).
Proof.
  split; [|split; [|split]].
  - intros now1 now2 blocks. do 2 eexists. repeat split; reflexivity.
  - intros c. unfold addPoint; simpl. rewrite length_app. simpl. lia.
  - intros i c H. unfold removePoint. rewrite H. reflexivity.
  - unfold apply_ops. induction ops as [|op ops IH]; intros c H; simpl; [exact H|].
    apply IH. apply apply_op_nonempty. exact H.
Qed.

Definition one_point_chart : ChartData :=
  mkChart Bar None None None [mkPoint "Jan" 400%float].

Lemma chart_never_empty_witness :
  removePoint 0 one_point_chart = one_point_chart /\
  1 <= List.length (data (apply_ops [RemovePoint 0; AddPoint; RemovePoint 1; RemovePoint 0]
                                    one_point_chart)).
Proof.
  destruct chart_never_empty as [_ [_ [Hr Hops]]].
  split.
  - apply Hr. reflexivity.
  - apply Hops. simpl. lia.
Defined.

End ChartFacts.

(** ** Export precondition *)

Module ExportFacts.
Import PdfExport.

(** C10: exporting an empty note collection reports the error
    "No notes to export." and produces no PDF at all. *)
Theorem export_empty_is_error (env : Env) (project_name : string) :
  exportToPDF env project_name [] = ExportError "No notes to export.".
Proof. reflexivity. Qed.

End ExportFacts.

(** ** Pagination loop *)

Module PaginationFacts.
Import Pagination.

(** *** Comparisons of doubles *)

Lemma SFcompare_refl (x : spec_float) : x <> S754_nan -> SFcompare x x = Some Eq.
Proof.
  intros Hx. destruct x as [s|s| |s m e]; [reflexivity| |congruence|].
  - destruct s; reflexivity.
  - destruct s; cbn [SFcompare]; rewrite Z.compare_refl, Pos.compare_cont_refl; reflexivity.
Qed.

Lemma SFcompare_swap (x y : spec_float) :
  SFcompare y x = option_map CompOpp (SFcompare x y).
Proof.
  destruct x as [s1|s1| |s1 m1 e1], y as [s2|s2| |s2 m2 e2];
    try destruct s1; try destruct s2; try reflexivity;
    cbn [SFcompare option_map]; rewrite (Z.compare_antisym e1 e2);
    destruct (Z.compare e1 e2); try reflexivity; cbn [CompOpp];
    pose proof (Pos.compare_cont_antisym m1 m2 Eq) as A; cbn [CompOpp] in A;
    rewrite <- A; try reflexivity; rewrite CompOpp_involutive; reflexivity.
Qed.

Lemma not_nan_SF (x : jsnum) : PrimFloat.is_nan x = false -> Prim2SF x <> S754_nan.
Proof.
  unfold PrimFloat.is_nan. rewrite FloatAxioms.eqb_spec. intros H E.
  rewrite E in H. discriminate.
Qed.

Lemma leb_refl (x : jsnum) : PrimFloat.is_nan x = false -> PrimFloat.leb x x = true.
Proof.
  intros H. rewrite FloatAxioms.leb_spec. unfold SFleb.
  rewrite SFcompare_refl by (apply not_nan_SF; exact H). reflexivity.
Qed.

Lemma ltb_leb (x y : jsnum) : PrimFloat.ltb x y = true -> PrimFloat.leb x y = true.
Proof.
  rewrite FloatAxioms.ltb_spec, FloatAxioms.leb_spec. unfold SFltb, SFleb.
  destruct (SFcompare _ _) as [[| |]|]; congruence.
Qed.

Lemma ltb_not_nan_r (x y : jsnum) : PrimFloat.ltb x y = true -> PrimFloat.is_nan y = false.
Proof.
  rewrite FloatAxioms.ltb_spec. unfold PrimFloat.is_nan. rewrite FloatAxioms.eqb_spec.
  unfold SFltb, SFeqb. intros H.
  destruct (Prim2SF y) eqn:Ey.
  - rewrite SFcompare_refl by discriminate. reflexivity.
  - rewrite SFcompare_refl by discriminate. reflexivity.
  - destruct (Prim2SF x); discriminate.
  - rewrite SFcompare_refl by discriminate. reflexivity.
Qed.

(** Not less in either direction, and neither is NaN: then [x <= y]. *)
Lemma leb_of_not_ltb (x y : jsnum) :
  PrimFloat.is_nan x = false -> PrimFloat.is_nan y = false ->
  PrimFloat.ltb y x = false -> PrimFloat.leb x y = true.
Proof.
  intros Hx Hy H. rewrite FloatAxioms.ltb_spec in H. rewrite FloatAxioms.leb_spec.
  unfold SFltb, SFleb in *. rewrite SFcompare_swap in H.
  destruct (SFcompare (Prim2SF x) (Prim2SF y)) as [[| |]|] eqn:E;
    try reflexivity; try discriminate.
  exfalso. apply not_nan_SF in Hx, Hy.
  destruct (Prim2SF x) as [[]|[]| |[]], (Prim2SF y) as [[]|[]| |[]];
    cbn in E; congruence.
Qed.

(** [Math.min(L, P)] of two positive numbers is positive and at most
    [P]. *)
Lemma js_min_bounds (L P : jsnum) :
  PrimFloat.ltb 0 L = true -> PrimFloat.ltb 0 P = true ->
  PrimFloat.ltb 0 (js_min L P) = true /\ PrimFloat.leb (js_min L P) P = true.
Proof.
  intros HL HP.
  pose proof (ltb_not_nan_r _ _ HL) as NL. pose proof (ltb_not_nan_r _ _ HP) as NP.
  unfold js_min. rewrite NL, NP.
  destruct (PrimFloat.ltb L P) eqn:E1.
  - split; [exact HL | apply ltb_leb; exact E1].
  - destruct (PrimFloat.ltb P L) eqn:E2.
    + split; [exact HP | apply leb_refl; exact NP].
    + destruct (PrimFloat.get_sign L).
      * split; [exact HL | apply leb_of_not_ltb; assumption].
      * split; [exact HP | apply leb_refl; exact NP].
Qed.

(** *** Termination within 21 iterations *)

(** The loop started at page [m <= 20] exits on its own within [21 - m]
    iterations: any larger fuel gives the same result, at most [21 - m]
    slices. *)
Lemma slice_loop_bounded (f : nat) (P L y : jsnum) (m : nat) :
  m <= 20 -> 21 - m <= f ->
  exists s, slice_loop f P L y m = Some s /\
            slice_loop (21 - m) P L y m = Some s /\
            List.length s <= 21 - m.
Proof.
  revert L y m. induction f as [|f IH]; intros L y m Hm Hf; [lia|].
  replace (21 - m) with (S (20 - m)) by lia.
  cbn [slice_loop].
  destruct (PrimFloat.ltb 0 L); [|exists []; simpl; repeat split; lia].
  destruct (20 <? S m) eqn:E.
  - exists [mkSlice y (js_min L P)]. simpl. repeat split; lia.
  - apply Nat.ltb_ge in E.
    destruct (IH (L - js_min L P)%float (y + js_min L P)%float (S m)) as [s [H1 [H2 H3]]];
      [lia | lia |].
    replace (20 - m) with (21 - S m) by lia.
    rewrite H1, H2. exists (mkSlice y (js_min L P) :: s).
    repeat split. cbn [List.length]. lia.
Qed.

(** *** What the loop computes *)

(** The remaining height after the slices [s], subtracted in double
    arithmetic from [L]. *)
Definition remaining (L : jsnum) (s : list slice) : jsnum :=
  fold_left (fun l sl => (l - sliceHeight sl)%float) s L.

(** The source offset after the slices [s], added in double arithmetic
    to [y]. *)
Definition end_y (y : jsnum) (s : list slice) : jsnum :=
  fold_left (fun y sl => (y + sliceHeight sl)%float) s y.

(** The value of a finite double, exactly. *)
Definition float_Q (x : jsnum) : Q :=
  match Prim2SF x with
  | S754_finite s m e => (inject_Z (if s then Z.neg m else Z.pos m) * Qpower (2 # 1) e)%Q
  | _ => 0%Q
  end.

(** The exact sum of the slice heights. *)
Definition sum_Q (s : list slice) : Q :=
  fold_right (fun sl acc => (float_Q (sliceHeight sl) + acc)%Q) 0%Q s.

Lemma slice_loop_spec (f : nat) (P L y : jsnum) (m : nat) :
  PrimFloat.ltb 0 P = true -> m <= 20 -> 21 - m <= f ->
  exists s, slice_loop f P L y m = Some s /\
    List.length s <= 21 - m /\
    (forall k sl, nth_error s k = Some sl ->
       sourceY sl = end_y y (firstn k s) /\
       PrimFloat.ltb 0 (remaining L (firstn k s)) = true /\
       sliceHeight sl = js_min (remaining L (firstn k s)) P /\
       PrimFloat.ltb 0 (sliceHeight sl) = true /\
       PrimFloat.leb (sliceHeight sl) P = true) /\
    (List.length s < 21 - m -> PrimFloat.ltb 0 (remaining L s) = false).
Proof.
  intros HP. revert L y m. induction f as [|f IH]; intros L y m Hm Hf; [lia|].
  cbn [slice_loop].
  destruct (PrimFloat.ltb 0 L) eqn:HL.
  2:{ exists []. split; [reflexivity|]. split; [cbn [List.length]; lia|]. split.
      - intros [|k] sl Hk; discriminate.
      - intros _. exact HL. }
  pose proof (js_min_bounds L P HL HP) as Hb.
  assert (Hhead : forall t sl, nth_error (mkSlice y (js_min L P) :: t) 0 = Some sl ->
     sourceY sl = end_y y (firstn 0 (mkSlice y (js_min L P) :: t)) /\
     PrimFloat.ltb 0 (remaining L (firstn 0 (mkSlice y (js_min L P) :: t))) = true /\
     sliceHeight sl = js_min (remaining L (firstn 0 (mkSlice y (js_min L P) :: t))) P /\
     PrimFloat.ltb 0 (sliceHeight sl) = true /\
     PrimFloat.leb (sliceHeight sl) P = true).
  { intros t sl E. injection E as <-. cbn. split; [reflexivity|]. split; [exact HL|].
    split; [reflexivity | exact Hb]. }
  destruct (20 <? S m) eqn:E.
  - apply Nat.ltb_lt in E. exists [mkSlice y (js_min L P)].
    split; [reflexivity|]. split; [cbn [List.length]; lia|]. split.
    + intros [|k] sl Hk; [exact (Hhead [] sl Hk)|]. destruct k; discriminate.
    + cbn [List.length]. lia.
  - apply Nat.ltb_ge in E.
    destruct (IH (L - js_min L P)%float (y + js_min L P)%float (S m) ltac:(lia) ltac:(lia))
      as [s [Hs [Hlen [Hk Hend]]]].
    rewrite Hs. exists (mkSlice y (js_min L P) :: s).
    split; [reflexivity|]. split; [cbn [List.length]; lia|]. split.
    + intros [|k] sl Hsl; [exact (Hhead s sl Hsl)|].
      cbn [nth_error] in Hsl. exact (Hk k sl Hsl).
    + intros Hlt. apply Hend. cbn [List.length] in Hlt. lia.
Qed.

(** C2 (counterexample): the loop computes in doubles.  On a canvas
    1477 pixels wide and 6460 high, [pxPerPage] is about [2153.29]; the
    loop emits [ceil (6460 / pxPerPage) = 4] slices, but their exact
    heights sum to [6460 + 2^-41], and the last one ends at the double
    [6460.000000000001], past the bottom of the canvas. *)
Lemma rounding_breaks_coverage :
  let P := PdfExport.pxPerPage (PdfExport.mkCanvas 1477 6460) in
  (0 < float_Q P)%Q /\
  Qceiling (inject_Z 6460 / float_Q P) = 4%Z /\
  (exists s, paginate P 6460 = Some s /\ List.length s = 4 /\
     ~ (sum_Q s == inject_Z 6460)%Q /\
     end_y 0%float s = 6460.000000000001%float) /\
  ~ (forall P H, (0 < float_Q P)%Q ->
       exists s, paginate P H = Some s /\
         ((Qceiling (inject_Z (Z.of_N H) / float_Q P) <= 21)%Z ->
          (sum_Q s == inject_Z (Z.of_N H))%Q)).
Proof.
  cbv zeta.
  assert (Hs : paginate (PdfExport.pxPerPage (PdfExport.mkCanvas 1477 6460)) 6460 =
               Some [mkSlice 0 2153.2935448189314; mkSlice 2153.2935448189314 2153.2935448189314;
                     mkSlice 4306.587089637863 2153.2935448189314;
                     mkSlice 6459.880634456795 0.11936554320618598]%float)
    by (vm_compute; reflexivity).
  assert (Hne : Qeq_bool (sum_Q [mkSlice 0 2153.2935448189314; mkSlice 2153.2935448189314 2153.2935448189314;
                     mkSlice 4306.587089637863 2153.2935448189314;
                     mkSlice 6459.880634456795 0.11936554320618598]%float) (inject_Z 6460) = false)
    by (vm_compute; reflexivity).
  split; [vm_compute; reflexivity|].
  split; [vm_compute; reflexivity|].
  split.
  - eexists. split; [exact Hs|]. split; [reflexivity|]. split.
    + intros Heq. apply Qeq_bool_iff in Heq. congruence.
    + vm_compute. reflexivity.
  - intros H.
    destruct (H (PdfExport.pxPerPage (PdfExport.mkCanvas 1477 6460)) 6460%N
                ltac:(vm_compute; reflexivity)) as [s [Hs' Hsum]].
    rewrite Hs in Hs'. injection Hs' as <-.
    specialize (Hsum ltac:(vm_compute; discriminate)).
    apply Qeq_bool_iff in Hsum. change (Z.of_N 6460) with 6460%Z in Hsum. congruence.
Qed.

(** C2 (amended): for a positive [pxPerPage] [P] and a canvas of height
    [H], the loop emits at most 21 slices.  Slice [k] starts at the
    double sum of the heights before it ([sourceY = 0] for the first),
    is emitted while the remaining height (the double [H] minus the
    heights before it) is positive, and has height [Math.min] of that
    remaining height and [P], a height in [(0, P]].  The loop stops
    after 21 slices or when the remaining height is no longer
    positive. *)
Theorem paginate_spec (P : jsnum) (H : N) :
  PrimFloat.ltb 0 P = true ->
  exists s, paginate P H = Some s /\
    List.length s <= 21 /\
    (forall k sl, nth_error s k = Some sl ->
       sourceY sl = end_y 0%float (firstn k s) /\
       PrimFloat.ltb 0 (remaining (ulong H) (firstn k s)) = true /\
       sliceHeight sl = js_min (remaining (ulong H) (firstn k s)) P /\
       PrimFloat.ltb 0 (sliceHeight sl) = true /\
       PrimFloat.leb (sliceHeight sl) P = true) /\
    (List.length s < 21 -> PrimFloat.ltb 0 (remaining (ulong H) s) = false).
Proof.
  intros HP. exact (slice_loop_spec 21 P (ulong H) 0%float 0 HP ltac:(lia) ltac:(lia)).
Qed.

Lemma paginate_spec_witness :
  PrimFloat.ltb 0 100 = true /\
  exists s, paginate 100%float 340 = Some s /\
    List.length s <= 21 /\
    (forall k sl, nth_error s k = Some sl ->
       sourceY sl = end_y 0%float (firstn k s) /\
       PrimFloat.ltb 0 (remaining (ulong 340) (firstn k s)) = true /\
       sliceHeight sl = js_min (remaining (ulong 340) (firstn k s)) 100%float /\
       PrimFloat.ltb 0 (sliceHeight sl) = true /\
       PrimFloat.leb (sliceHeight sl) 100%float = true) /\
    (List.length s < 21 -> PrimFloat.ltb 0 (remaining (ulong 340) s) = false).
Proof.
  split; [reflexivity|]. apply (paginate_spec 100%float 340%N). reflexivity.
Defined.

End PaginationFacts.

Module ExportPagesFacts.
Import Pagination PdfExport.

Lemma addImage_length (img : pdf_image) (st : pdf_state) :
  st <> [] -> List.length (addImage img st) = List.length st /\ addImage img st <> [].
Proof. destruct st; [congruence|]. simpl. split; [reflexivity | discriminate]. Qed.

(** After the first slice every slice adds one page. *)
Lemma add_slices_length (env : Env) (i k : nat) (s : list slice) (st st' : pdf_state) :
  st <> [] -> k <> 0 -> add_slices env i k s st = inl st' ->
  List.length st' <= List.length st + List.length s.
Proof.
  revert k st. induction s as [|sl s IH]; intros k st Hst Hk E; cbn [add_slices] in E.
  - injection E as <-. lia.
  - destruct k as [|k]; [congruence|]. cbn [Nat.eqb] in E.
    destruct (getContext env i sl).
    + destruct (image_error env (SliceImage i sl)); [discriminate|].
      apply IH in E; [| cbn [addImage addPage]; discriminate | discriminate].
      cbn [addImage addPage List.length] in E. cbn [List.length]. lia.
    + apply IH in E; [| unfold addPage; discriminate | discriminate].
      cbn [addPage List.length] in E. cbn [List.length]. lia.
Qed.

Lemma add_note_length (env : Env) (i : nat) (n : Note) (st st' : pdf_state) :
  add_note env i n st = inl st' -> List.length st' <= List.length st + 21.
Proof.
  unfold add_note. cbv zeta.
  destruct (html2canvas env (NoteHtml n)) as [c|msg]; [|discriminate].
  destruct (PaginationFacts.slice_loop_bounded 21 (pxPerPage c)
              (ulong (canvas_height c)) 0%float 0) as [s [Hs [_ Hlen]]]; [lia | lia |].
  rewrite Hs. clear Hs.
  destruct s as [|sl s]; cbn [add_slices Nat.eqb].
  - intros E. injection E as <-. cbn. lia.
  - cbn [List.length] in Hlen.
    destruct (getContext env i sl).
    + destruct (image_error env (SliceImage i sl)); [discriminate|].
      intros E. apply add_slices_length in E; [|discriminate | discriminate].
      cbn [addImage addPage List.length app] in E. lia.
    + intros E. apply add_slices_length in E; [|discriminate | discriminate].
      cbn [addPage List.length] in E. lia.
Qed.

Lemma add_notes_length (add_one : nat -> Note -> pdf_state -> pdf_state + string)
  (i : nat) (notes : list Note) (st st' : pdf_state) :
  (forall j n st st', add_one j n st = inl st' -> List.length st' <= List.length st + 21) ->
  add_notes add_one i notes st = inl st' ->
  List.length st' <= List.length st + 21 * List.length notes.
Proof.
  intros Hone. revert i st.
  induction notes as [|n ns IH]; intros i st; cbn [add_notes List.length].
  - intros E. injection E as <-. lia.
  - destruct (add_one i n st) as [st1|msg] eqn:E1; [|discriminate].
    intros E. specialize (IH (S i) st1 E). specialize (Hone i n st st1 E1). lia.
Qed.

(** An export where every call succeeds and every note renders to a
    canvas 190 pixels wide and [h] pixels high. *)
Definition tall_env (h : N) : Env :=
  mkEnv (fun _ => inl (mkCanvas 190 h)) (fun _ _ => true) (fun _ => None).

(** C8 (counterexample): a surface of height 100 with one source pixel per
    page gives 21 slices, and a single note rendered that tall fills 21
    pages after the cover page. *)
Lemma one_note_fills_21_pages :
  (exists s, paginate 1%float 100 = Some s /\ List.length s = 21) /\
  (exists f pages,
      exportToPDF (tall_env 100000) "Project" [mkNote "t" "2026-01-01" "c"]
      = ExportSaved f pages /\ List.length pages = 22).
Proof.
  split.
  - eexists. split; [vm_compute; reflexivity | reflexivity].
  - do 2 eexists. split; [vm_compute; reflexivity | reflexivity].
Qed.

(** C8 (amended): whatever the surface height and page geometry (even a
    non-positive or NaN [pxPerPage]), the slicing loop exits by itself
    after at most 21 iterations (every fuel of at least 21 gives the same
    result), so each note adds at most 21 pages to the export. *)
Theorem slice_loop_terminates :
  (forall fuel pxPerPage height, 21 <= fuel ->
     exists s, slice_loop fuel pxPerPage (ulong height) 0%float 0 = Some s /\
               paginate pxPerPage height = Some s /\
               List.length s <= 21) /\
  (forall env name notes f pages,
     exportToPDF env name notes = ExportSaved f pages ->
     List.length pages <= 1 + 21 * List.length notes).
Proof.
  split.
  - intros fuel pxPerPage height Hf.
    destruct (PaginationFacts.slice_loop_bounded fuel pxPerPage (ulong height) 0%float 0)
      as [s [H1 [H2 H3]]]; [lia | lia |].
    exists s. unfold paginate. rewrite H1, <- H2. repeat split. lia.
  - intros env name notes f pages E. unfold exportToPDF in E.
    destruct (List.length notes =? 0); [discriminate|].
    destruct (html2canvas env CoverHtml); [|discriminate].
    destruct (image_error env CoverImage); [discriminate|].
    destruct (add_notes (add_note env) 0 notes (addImage CoverImage [[]])) as [st|msg] eqn:Ea;
      [|discriminate].
    injection E as _ <-. rewrite length_rev.
    pose proof (add_notes_length (add_note env) 0 notes _ st (add_note_length env) Ea) as H.
    cbn [addImage List.length app] in H. lia.
Qed.

Lemma slice_loop_terminates_witness :
  (exists s, slice_loop 100 1%float (ulong 35) 0%float 0 = Some s /\
             paginate 1%float 35 = Some s /\ List.length s <= 21) /\
  (forall f pages,
     exportToPDF (tall_env 100000) "Project" [mkNote "t" "2026-01-01" "c"]
     = ExportSaved f pages -> List.length pages <= 22).
Proof.
  destruct slice_loop_terminates as [H1 H2]. split.
  - apply (H1 100 1%float 35%N). lia.
  - intros f pages E. apply (H2 _ _ _ f pages E).
Defined.

End ExportPagesFacts.


(* ------------------------------------------------------------------ *)
(** ** [JSON.parse] inverts [JSON.stringify] on finite values *)

Module JsonFacts.
Import Json Serializer.


Lemma append_assoc_s (a b c : string) : ((a ++ b) ++ c = a ++ (b ++ c))%string.
Proof. induction a as [|x a IH]; simpl; [reflexivity | now rewrite IH]. Qed.

Lemma length_append_s (a b : string) :
  String.length (a ++ b) = String.length a + String.length b.
Proof. induction a as [|x a IH]; simpl; [reflexivity | now rewrite IH]. Qed.

Lemma escape_char_parse (c : ascii) (t : string) :
  parse_str (escape_char c ++ t)%string = cons_res c (parse_str t).
Proof. destruct c as [[] [] [] [] [] [] [] []]; reflexivity. Qed.

Lemma parse_str_escape (s t : string) :
  parse_str (escape_str s ++ String dq t)%string = Some (s, t).
Proof.
  induction s as [|c s IH]; [reflexivity|].
  cbn [escape_str]. rewrite append_assoc_s, escape_char_parse, IH. reflexivity.
Qed.

Lemma parse_str_quote (s t : string) :
  parse_str (escape_str s ++ String dq "" ++ t)%string = Some (s, t).
Proof. apply parse_str_escape. Qed.

(** *** Number literals followed by a delimiter *)

Definition delim (r : string) : bool :=
  match r with
  | EmptyString => true
  | String c _ => let n := nat_of_ascii c in (n =? 44) || (n =? 93) || (n =? 125)
  end.

(** A character that cannot continue a number literal. *)
Definition stop_char (c : ascii) : bool :=
  let n := nat_of_ascii c in
  negb (is_digit c) && negb (n =? 46) && negb (n =? 101) && negb (n =? 69) &&
  negb (n =? 43) && negb (n =? 45).

Definition stop (r : string) : bool :=
  match r with
  | EmptyString => true
  | String c _ => stop_char c
  end.

Lemma delim_stop (r : string) : delim r = true -> stop r = true.
Proof.
  destruct r as [|c r]; [reflexivity|]. unfold delim, stop, stop_char, is_digit.
  intros H. destruct (nat_of_ascii c =? 44) eqn:E1; [apply Nat.eqb_eq in E1; rewrite E1; reflexivity|].
  destruct (nat_of_ascii c =? 93) eqn:E2; [apply Nat.eqb_eq in E2; rewrite E2; reflexivity|].
  destruct (nat_of_ascii c =? 125) eqn:E3; [apply Nat.eqb_eq in E3; rewrite E3; reflexivity|].
  discriminate.
Qed.

Definition shift (r : string) (p : string * string) : string * string :=
  (fst p, (snd p ++ r)%string).

Section Stop.
Variable r : string.
Hypothesis Hr : stop r = true.

Lemma span_digits_app (s : string) :
  span_digits (s ++ r)%string = shift r (span_digits s).
Proof.
  induction s as [|c s IH]; cbn [append span_digits].
  - destruct r as [|c r']; [reflexivity|]. cbn [span_digits].
    cbn [stop] in Hr; unfold stop_char in Hr; cbv zeta in Hr. destruct (is_digit c); [simpl in Hr; discriminate | reflexivity].
  - destruct (is_digit c); [|reflexivity].
    rewrite IH. destruct (span_digits s). reflexivity.
Qed.

Lemma lex_int_app (s : string) :
  lex_int (s ++ r)%string = option_map (shift r) (lex_int s).
Proof.
  destruct s as [|c s]; cbn [append lex_int].
  - destruct r as [|c r']; [reflexivity|]. cbn [lex_int].
    cbn [stop] in Hr; unfold stop_char in Hr; cbv zeta in Hr.
    destruct (nat_of_ascii c =? 48) eqn:E;
      [apply Nat.eqb_eq in E; unfold is_digit in Hr; rewrite E in Hr; simpl in Hr; discriminate|].
    destruct (is_digit c); [simpl in Hr; discriminate | reflexivity].
  - destruct (nat_of_ascii c =? 48); [reflexivity|].
    destruct (is_digit c); [|reflexivity].
    rewrite span_digits_app. destruct (span_digits s). reflexivity.
Qed.

Lemma lex_frac_app (s : string) :
  lex_frac (s ++ r)%string = option_map (shift r) (lex_frac s).
Proof.
  destruct s as [|c s]; cbn [append lex_frac].
  - destruct r as [|c r']; [reflexivity|]. cbn [lex_frac].
    cbn [stop] in Hr; unfold stop_char in Hr; cbv zeta in Hr.
    destruct (nat_of_ascii c =? 46); [rewrite andb_false_r in Hr; discriminate | reflexivity].
  - destruct (nat_of_ascii c =? 46); [|reflexivity].
    rewrite span_digits_app. destruct (span_digits s) as [[|d ds] x]; reflexivity.
Qed.

Lemma lex_sign_app (s : string) :
  lex_sign (s ++ r)%string = shift r (lex_sign s).
Proof.
  destruct s as [|c s]; cbn [append lex_sign].
  - destruct r as [|c r']; [reflexivity|]. cbn [lex_sign].
    cbn [stop] in Hr; unfold stop_char in Hr; cbv zeta in Hr.
    destruct (nat_of_ascii c =? 43); [rewrite andb_false_r in Hr; discriminate|].
    destruct (nat_of_ascii c =? 45); [rewrite andb_false_r in Hr; discriminate | reflexivity].
  - destruct (_ || _); reflexivity.
Qed.

Lemma lex_exp_app (s : string) :
  lex_exp (s ++ r)%string = option_map (shift r) (lex_exp s).
Proof.
  destruct s as [|c s]; cbn [append lex_exp].
  - destruct r as [|c r']; [reflexivity|]. cbn [lex_exp].
    cbn [stop] in Hr; unfold stop_char in Hr; cbv zeta in Hr.
    destruct (nat_of_ascii c =? 101); [rewrite !andb_false_r in Hr; discriminate|].
    destruct (nat_of_ascii c =? 69); [rewrite !andb_false_r in Hr; discriminate | reflexivity].
  - destruct (_ || _); [|reflexivity].
    rewrite lex_sign_app. destruct (lex_sign s) as [sg s2]. cbn [shift fst snd].
    rewrite span_digits_app. destruct (span_digits s2) as [[|d ds] x]; reflexivity.
Qed.

Lemma lex_number_app (s : string) :
  lex_number (s ++ r)%string = option_map (shift r) (lex_number s).
Proof.
  pose proof (lex_int_app EmptyString) as L0. cbn [append lex_int option_map] in L0.
  unfold lex_number. destruct s as [|c s]; cbn [append].
  - destruct r as [|c r']; [reflexivity|].
    cbn [stop] in Hr; unfold stop_char in Hr; cbv zeta in Hr.
    destruct (nat_of_ascii c =? 45); [rewrite andb_false_r in Hr; discriminate|].
    rewrite L0. reflexivity.
  - destruct (nat_of_ascii c =? 45);
      [|change (String c (s ++ r)) with (String c s ++ r)%string];
      rewrite lex_int_app;
      [destruct (lex_int s) as [[i s2]|] | destruct (lex_int (String c s)) as [[i s2]|]];
      try reflexivity; cbn [option_map shift fst snd];
      rewrite lex_frac_app; destruct (lex_frac s2) as [[f s3]|]; try reflexivity;
      cbn [option_map shift fst snd];
      rewrite lex_exp_app; destruct (lex_exp s3) as [[e s4]|]; reflexivity.
Qed.

End Stop.

(** A number literal followed by a delimiter is read up to the
    delimiter. *)
Lemma lex_number_token (t r : string) :
  lex_number t = Some (t, EmptyString) -> delim r = true ->
  lex_number (t ++ r)%string = Some (t, r).
Proof.
  intros Ht Hd. rewrite (lex_number_app r (delim_stop r Hd)), Ht. reflexivity.
Qed.

(** A number literal starts with a digit or a minus sign. *)
Lemma lex_number_head (s t r : string) :
  lex_number s = Some (t, r) ->
  exists c s', s = String c s' /\ (is_digit c = true \/ nat_of_ascii c = 45).
Proof.
  destruct s as [|c s']; [discriminate|]. intros H.
  exists c, s'. split; [reflexivity|].
  destruct (nat_of_ascii c =? 45) eqn:E; [right; apply Nat.eqb_eq; exact E|].
  left. unfold lex_number in H. rewrite E in H. unfold lex_int in H.
  destruct (nat_of_ascii c =? 48) eqn:E0.
  - apply Nat.eqb_eq in E0. unfold is_digit. rewrite E0. reflexivity.
  - destruct (is_digit c); [reflexivity | discriminate].
Qed.

Lemma digit_head (d : ascii) :
  is_digit d = true \/ nat_of_ascii d = 45 ->
  is_ws d = false /\ (nat_of_ascii d =? 93) = false /\ (nat_of_ascii d =? 125) = false /\
  (nat_of_ascii d =? 34) = false.
Proof.
  intros [H|H].
  - destruct d as [[] [] [] [] [] [] [] []]; cbn; try discriminate; auto.
  - unfold is_ws. rewrite H. auto.
Qed.

Lemma parse_value_digit (string_to_number : string -> jsnum) (f : nat) (c : ascii) (s : string) :
  is_digit c = true \/ nat_of_ascii c = 45 ->
  parse_value string_to_number (S f) (String c s) = parse_number string_to_number (String c s).
Proof.
  intros H. destruct c as [[] [] [] [] [] [] [] []];
    try reflexivity; destruct H as [H|H]; cbn in H; discriminate.
Qed.

Lemma keys_nodup_app (acc m : list (string * jsval)) (k : string) (x : jsval) :
  keys_nodup (acc ++ (k, x) :: m) = true -> existsb (String.eqb k) (map fst acc) = false.
Proof.
  induction acc as [|[k0 v0] acc IH]; [reflexivity|].
  cbn [app keys_nodup map fst existsb]. intros H. apply andb_prop in H as [H1 H2].
  rewrite (IH H2), orb_false_r.
  rewrite map_app, existsb_app in H1. cbn [map fst existsb] in H1.
  destruct (String.eqb k k0) eqn:E; [|reflexivity].
  apply String.eqb_eq in E. subst k0. rewrite String.eqb_refl in H1.
  rewrite orb_true_r in H1. discriminate.
Qed.

Lemma obj_insert_fresh (k : string) (x : jsval) (acc : list (string * jsval)) :
  existsb (String.eqb k) (map fst acc) = false -> obj_insert k x acc = acc ++ [(k, x)].
Proof.
  induction acc as [|[k0 v0] acc IH]; [reflexivity|].
  cbn [map fst existsb obj_insert]. intros H. apply orb_false_elim in H as [H1 H2].
  rewrite H1, (IH H2). reflexivity.
Qed.

Ltac slen H :=
  repeat (first [rewrite length_append_s in H | progress cbn [String.length append] in H]).

Ltac slen_goal :=
  repeat (first [rewrite length_append_s | progress cbn [String.length append]]).

Lemma delim_members (f : jsval -> string) (m : list (string * jsval)) (rest : string) :
  delim (members_str f m ++ rest)%string = true.
Proof. destruct m as [|[k y] m]; reflexivity. Qed.

Lemma delim_elems (f : jsval -> string) (l : list jsval) (rest : string) :
  delim (elems_str f l ++ rest)%string = true.
Proof. destruct l; reflexivity. Qed.

Lemma parse_value_string_eq (stn : string -> jsnum) (f : nat) (s : string) :
  parse_value stn (S f) (String dq s) =
  match parse_str s with Some (t, r) => Some (JString t, r) | None => None end.
Proof. reflexivity. Qed.

Lemma parse_value_array_eq (stn : string -> jsnum) (f : nat) (s : string) :
  parse_value stn (S f) (String "[" s) =
  match skip_ws s with
  | String c' s'' => if nat_of_ascii c' =? 93 then Some (JArray [], s'') else parse_elems stn f [] s
  | EmptyString => None
  end.
Proof. reflexivity. Qed.

Lemma parse_value_object_eq (stn : string -> jsnum) (f : nat) (s : string) :
  parse_value stn (S f) (String "{" s) =
  match skip_ws s with
  | String c' s'' => if nat_of_ascii c' =? 125 then Some (JObject [], s'') else parse_members stn f [] s
  | EmptyString => None
  end.
Proof. reflexivity. Qed.

Lemma append_nil_s (s : string) : (s ++ "")%string = s.
Proof. induction s as [|c s IH]; simpl; [reflexivity | now rewrite IH]. Qed.

Section Roundtrip.
Variable number_to_string : jsnum -> string.
Variable string_to_number : string -> jsnum.

(** Every number of [v] is written and read back faithfully. *)
Definition nums_ok (v : jsval) : Prop :=
  Forall (number_roundtrip number_to_string string_to_number) (numbers v).

Lemma parse_value_number (f : nat) (x : jsnum) (rest : string) :
  number_roundtrip number_to_string string_to_number x -> delim rest = true ->
  parse_value string_to_number (S f) (number_to_string x ++ rest)%string =
  Some (JNumber x, rest).
Proof.
  intros [_ [Hlex Hx]] Hd.
  pose proof (lex_number_token _ rest Hlex Hd) as Ht.
  destruct (lex_number_head _ _ _ Ht) as [c [s' [Hs Hc]]].
  rewrite Hs, parse_value_digit by exact Hc. rewrite <- Hs.
  unfold parse_number. rewrite Ht, Hx. reflexivity.
Qed.

Lemma stringify_head (v : jsval) :
  nums_ok v ->
  exists c t, stringify number_to_string v = String c t /\ is_ws c = false /\
    (nat_of_ascii c =? 93) = false /\ (nat_of_ascii c =? 125) = false.
Proof.
  intros Hv.
  destruct v as [| [] | x | s | [|x l] | [|[k x] m]];
    try (eexists; eexists; split; [reflexivity | repeat split]; reflexivity).
  unfold nums_ok in Hv. cbn [numbers] in Hv. inversion Hv as [|? ? Hx]; subst.
  destruct Hx as [Hfin [Hlex _]]. cbn [stringify]. rewrite Hfin.
  destruct (lex_number_head _ _ _ Hlex) as [c [t [Hs Hc]]].
  exists c, t. split; [exact Hs|]. destruct (digit_head c Hc) as [H1 [H2 [H3 _]]]. auto.
Qed.

Lemma skip_ws_stringify (v : jsval) (r : string) :
  nums_ok v ->
  skip_ws (stringify number_to_string v ++ r)%string = (stringify number_to_string v ++ r)%string.
Proof.
  intros Hv. destruct (stringify_head v Hv) as [c [t [Hs [Hw _]]]]. rewrite Hs.
  cbn [append skip_ws]. rewrite Hw. reflexivity.
Qed.

Section Elements.
Variable n : nat.
Hypothesis IH : forall f v rest, f <= n -> wf v = true -> nums_ok v ->
  2 * String.length (stringify number_to_string v) < f -> delim rest = true ->
  parse_value string_to_number f (stringify number_to_string v ++ rest)%string = Some (v, rest).

Lemma elems_ok (l : list jsval) :
  forall x acc g rest, g <= S n -> wf x = true -> forallb wf l = true ->
  nums_ok x -> Forall (number_roundtrip number_to_string string_to_number) (flat_map numbers l) ->
  2 * String.length (stringify number_to_string x ++ elems_str (stringify number_to_string) l)%string < g ->
  parse_elems string_to_number g acc
    (stringify number_to_string x ++ elems_str (stringify number_to_string) l ++ rest)%string =
    Some (JArray (acc ++ x :: l), rest).
Proof.
  induction l as [|y l IHl]; intros x acc g rest Hg Hx Hl Nx Nl Hlen;
    destruct g as [|g]; try lia; rewrite length_append_s in Hlen.
  - cbn [elems_str] in *. cbn [parse_elems].
    rewrite (IH g x ("]" ++ rest)%string) by (cbn in *; auto; lia).
    reflexivity.
  - cbn [elems_str forallb flat_map] in *. apply andb_prop in Hl as [Hy Hl].
    apply Forall_app in Nl as [Ny Nl].
    cbn [parse_elems]. cbn [append].
    erewrite (IH g x); [| lia | exact Hx | exact Nx
                       | cbn [String.length append] in *; rewrite ?length_append_s in *; lia
                       | reflexivity].
    cbn [skip_ws]. change (is_ws ",") with false. cbn iota.
    change (nat_of_ascii "," =? 44) with true. cbn iota.
    rewrite append_assoc_s.
    rewrite (IHl y (acc ++ [x]) g rest); [| lia | exact Hy | exact Hl | exact Ny | exact Nl |].
    + rewrite <- app_assoc. reflexivity.
    + rewrite length_append_s. cbn [String.length append] in Hlen.
      rewrite length_append_s in Hlen. lia.
Qed.

Lemma members_ok (m : list (string * jsval)) :
  forall k x acc g rest, g <= S n -> wf x = true ->
  forallb (fun kv => wf (snd kv)) m = true ->
  nums_ok x ->
  Forall (number_roundtrip number_to_string string_to_number)
         (flat_map (fun kv => numbers (snd kv)) m) ->
  keys_nodup (acc ++ (k, x) :: m) = true ->
  2 * String.length (quote k ++ ":" ++ stringify number_to_string x ++
                     members_str (stringify number_to_string) m)%string < g ->
  parse_members string_to_number g acc
    (quote k ++ ":" ++ stringify number_to_string x ++
     members_str (stringify number_to_string) m ++ rest)%string =
    Some (JObject (acc ++ (k, x) :: m), rest).
Proof.
  induction m as [|[k' y] m IHm]; intros k x acc g rest Hg Hx Hm Nx Nm Hk Hlen;
    destruct g as [|g]; try lia.
  all: cbn [parse_members]; unfold quote; cbn [append skip_ws];
    simpl;
    rewrite append_assoc_s; cbn [append].
  all: rewrite parse_str_escape;
    simpl.
  all: unfold quote in Hlen; slen Hlen.
  - erewrite (IH g x); [| lia | exact Hx | exact Nx | lia | reflexivity].
    simpl. rewrite (obj_insert_fresh k x acc (keys_nodup_app acc [] k x Hk)).
    reflexivity.
  - erewrite (IH g x); [| lia | exact Hx | exact Nx | lia | reflexivity].
    simpl. rewrite (obj_insert_fresh k x acc (keys_nodup_app acc _ k x Hk)).
    cbn [forallb snd] in Hm. apply andb_prop in Hm as [Hy Hm].
    cbn [flat_map snd] in Nm. apply Forall_app in Nm as [Ny Nm].
    replace (String dq (((escape_str k' ++ String dq "") ++
               String ":" (stringify number_to_string y ++
                           members_str (stringify number_to_string) m)) ++ rest))%string
      with (quote k' ++ ":" ++ stringify number_to_string y ++
            members_str (stringify number_to_string) m ++ rest)%string
      by (unfold quote; repeat (first [rewrite append_assoc_s | progress cbn [append]]); reflexivity).
    rewrite (IHm k' y (acc ++ [(k, x)]) g rest); [| lia | exact Hy | exact Hm | exact Ny | exact Nm | |].
    + rewrite <- app_assoc. reflexivity.
    + rewrite <- app_assoc. exact Hk.
    + cbn [members_str] in Hlen. unfold quote in *. slen Hlen. slen_goal. lia.
Qed.

End Elements.

Lemma parse_value_stringify (n : nat) :
  forall f v rest, f <= n -> wf v = true -> nums_ok v ->
  2 * String.length (stringify number_to_string v) < f -> delim rest = true ->
  parse_value string_to_number f (stringify number_to_string v ++ rest)%string = Some (v, rest).
Proof.
  induction n as [|n IHn]; intros f v rest Hf Hv Nv Hlen Hd; [lia|].
  destruct f as [|f]; [lia|].
  destruct v as [| [] | x | s | [|x l] | [|[k x] m]]; try reflexivity;
    try discriminate Hv.
  - unfold nums_ok in Nv. cbn [numbers] in Nv. inversion Nv as [|? ? Hx]; subst.
    cbn [stringify]. rewrite (proj1 Hx). apply parse_value_number; assumption.
  - cbn [stringify]. unfold quote. cbn [append].
    rewrite parse_value_string_eq, append_assoc_s. cbn [append].
    rewrite parse_str_escape. reflexivity.
  - cbn [stringify] in *. cbn [wf forallb] in Hv. apply andb_prop in Hv as [Hx Hl].
    unfold nums_ok in Nv. cbn [numbers flat_map] in Nv. apply Forall_app in Nv as [Nx Nl].
    cbn [append]. rewrite parse_value_array_eq.
    rewrite append_assoc_s, skip_ws_stringify by exact Nx.
    destruct (stringify_head x Nx) as [c [t [Hs [_ [H93 _]]]]].
    rewrite Hs. cbn [append]. rewrite H93. cbn iota.
    change (String c (t ++ ?R))%string with (String c t ++ R)%string. rewrite <- Hs.
    apply (elems_ok n IHn l x [] f rest); [lia | exact Hx | exact Hl | exact Nx | exact Nl |].
    cbn [String.length append] in Hlen. lia.
  - cbn [stringify] in *. cbn [wf forallb snd] in Hv.
    apply andb_prop in Hv as [Hk Hv]. apply andb_prop in Hv as [Hx Hm].
    unfold nums_ok in Nv. cbn [numbers flat_map snd] in Nv. apply Forall_app in Nv as [Nx Nm].
    rewrite !append_assoc_s.
    change (parse_value string_to_number (S f) ("{" ++ ?Z)%string)
      with (parse_value string_to_number (S f) (String "{" Z)).
    rewrite parse_value_object_eq.
    assert (Hq : exists t, (quote k ++ ":" ++ stringify number_to_string x ++
                            members_str (stringify number_to_string) m ++ rest)%string
                           = String dq t) by (eexists; reflexivity).
    destruct Hq as [t Ht]. rewrite Ht. cbn [skip_ws].
    change (is_ws dq) with false. change (nat_of_ascii dq =? 125) with false. cbn iota.
    rewrite <- Ht.
    apply (members_ok n IHn m k x [] f rest); [lia | exact Hx | exact Hm | exact Nx | exact Nm | exact Hk |].
    slen Hlen. slen_goal. lia.
Qed.

Lemma parse_stringify (v : jsval) :
  wf v = true -> nums_ok v ->
  parse string_to_number (stringify number_to_string v) = Some v.
Proof.
  intros Hv Nv. unfold parse.
  pose proof (parse_value_stringify (S (2 * String.length (stringify number_to_string v)))
                (S (2 * String.length (stringify number_to_string v))) v "" (le_n _) Hv Nv
                ltac:(lia) eq_refl) as H.
  rewrite append_nil_s in H. rewrite H. reflexivity.
Qed.

End Roundtrip.

Lemma elems_str_last (f : jsval -> string) (l : list jsval) :
  exists p, elems_str f l = (p ++ "]")%string.
Proof.
  induction l as [|y l [p Hp]]; [exists ""%string; reflexivity|].
  exists ("," ++ f y ++ p)%string. cbn [elems_str]. rewrite Hp.
  rewrite !append_assoc_s. reflexivity.
Qed.

Lemma last_char_snoc (p : string) (c : ascii) : last_char (p ++ String c "") = Some c.
Proof.
  induction p as [|c0 p IH]; [reflexivity|].
  cbn [append last_char]. destruct (p ++ String c "")%string eqn:E.
  - destruct p; discriminate.
  - exact IH.
Qed.

Lemma array_brackets (nts : jsnum -> string) (l : list jsval) :
  startsWith_bracket (stringify nts (JArray l)) = true /\
  endsWith_bracket (stringify nts (JArray l)) = true.
Proof.
  destruct l as [|x l]; [split; reflexivity|]. split; [reflexivity|].
  unfold endsWith_bracket. cbn [stringify].
  destruct (elems_str_last (stringify nts) l) as [p Hp]. rewrite Hp.
  replace ("[" ++ stringify nts x ++ p ++ "]")%string
    with (("[" ++ stringify nts x ++ p) ++ String "]" "")%string
    by (rewrite !append_assoc_s; reflexivity).
  rewrite last_char_snoc. reflexivity.
Qed.

Lemma wf_strings (l : list string) : wf (js_strings l) = true.
Proof. induction l as [|s l IH]; [reflexivity | exact IH]. Qed.

Lemma wf_rows (rs : list (list string)) : forallb wf (map js_strings rs) = true.
Proof. induction rs as [|r rs IH]; [reflexivity|]. cbn [map forallb]. rewrite wf_strings. exact IH. Qed.

Lemma wf_table (t : TableData) : wf (js_table t) = true.
Proof.
  destruct t as [r ch rh]. unfold js_table. cbn [rows colHeaders rowHeaders].
  destruct ch, rh; cbn [opt_field Datatypes.app wf keys_nodup forallb snd map fst existsb];
    rewrite ?wf_rows, ?wf_strings; reflexivity.
Qed.

Lemma wf_points (ps : list DataPoint) : forallb wf (map js_point ps) = true.
Proof. induction ps as [|p ps IH]; [reflexivity|]. exact IH. Qed.

Lemma wf_chart (c : ChartData) : wf (js_chart c) = true.
Proof.
  destruct c as [ty ti xl yl ds]. unfold js_chart. cbn [ctype title xAxisLabel yAxisLabel data].
  destruct ti, xl, yl; cbn [opt_field Datatypes.app wf keys_nodup forallb snd map fst existsb];
    rewrite wf_points; reflexivity.
Qed.

Lemma wf_block (b : Block) : wf (js_block b) = true.
Proof.
  destruct b as [i ty ct w td cd]. unfold js_block.
  cbn [bid btype content width tableData chartData].
  destruct w as [w|], td as [t|], cd as [c|];
    cbn [opt_field Datatypes.app wf keys_nodup forallb snd map fst existsb];
    rewrite ?wf_table, ?wf_chart; reflexivity.
Qed.

Lemma wf_doc (d : Document) : wf (js_doc d) = true.
Proof.
  induction d as [|b d IH]; [reflexivity|].
  unfold js_doc in *. cbn [map wf forallb]. rewrite wf_block. exact IH.
Qed.

(** The numbers of the encoded document are those of the document. *)
Lemma numbers_strings (l : list string) : numbers (js_strings l) = [].
Proof. induction l as [|s l IH]; [reflexivity | exact IH]. Qed.

Lemma numbers_table (t : TableData) : numbers (js_table t) = [].
Proof.
  destruct t as [r ch rh]. unfold js_table. cbn [rows colHeaders rowHeaders].
  assert (Hr : flat_map numbers (map js_strings r) = []).
  { induction r as [|x r IH]; [reflexivity|]. cbn [map flat_map]. rewrite numbers_strings. exact IH. }
  destruct ch, rh; cbn [opt_field Datatypes.app numbers flat_map snd];
    rewrite ?Hr, ?numbers_strings; reflexivity.
Qed.

Lemma numbers_points (ps : list DataPoint) :
  flat_map numbers (map js_point ps) = map pvalue ps.
Proof. induction ps as [|p ps IH]; [reflexivity|]. cbn [map flat_map]. rewrite IH. reflexivity. Qed.

Lemma numbers_chart (c : ChartData) : numbers (js_chart c) = map pvalue (data c).
Proof.
  destruct c as [ty ti xl yl ds]. unfold js_chart. cbn [ctype title xAxisLabel yAxisLabel data].
  destruct ti, xl, yl; cbn [opt_field Datatypes.app numbers flat_map snd];
    rewrite numbers_points, List.app_nil_r; reflexivity.
Qed.

Lemma numbers_block (b : Block) : numbers (js_block b) = block_numbers b.
Proof.
  destruct b as [i ty ct w td cd]. unfold js_block, block_numbers.
  cbn [bid btype content width tableData chartData].
  destruct w as [w|], td as [t|], cd as [c|];
    cbn [opt_field Datatypes.app numbers flat_map snd];
    rewrite ?numbers_table, ?numbers_chart, ?List.app_nil_r; reflexivity.
Qed.

Lemma numbers_doc (d : Document) : numbers (js_doc d) = doc_numbers d.
Proof.
  induction d as [|b d IH]; [reflexivity|].
  unfold js_doc, doc_numbers in *. cbn [map flat_map numbers] in *.
  rewrite numbers_block. f_equal. exact IH.
Qed.

End JsonFacts.

(* ------------------------------------------------------------------ *)
(** ** Serializer: [updateBlocks] followed by the initialising effect *)

Module SerializerFacts.
Import Json Serializer JsonFacts.

(** The fallback document [[{ id: 'initial', type: 'text', content: s }]],
    written out. *)
Definition legacy_doc (s : string) : jsval :=
  JArray [JObject [("id", JString "initial"); ("type", JString "text"); ("content", JString s)]%string].

(** A number conversion pair for a few integers, enough to run the
    serializer on the documents below. *)
Definition sample_numbers : list (jsnum * string) :=
  [(50%float, "50"); (100%float, "100"); (300%float, "300"); (400%float, "400"); (600%float, "600")]%string.

Definition sample_to_string (x : jsnum) : string :=
  match find (fun p => PrimFloat.eqb (fst p) x) sample_numbers with
  | Some (_, t) => t
  | None => "0"%string
  end.

Definition sample_of_string (t : string) : jsnum :=
  match find (fun p => String.eqb (snd p) t) sample_numbers with
  | Some (x, _) => x
  | None => 0%float
  end.

(** C3: decoding the encoded form of a document gives back the JSON value
    of the document, for every document whose numbers (image widths and
    chart values) [Number::toString] writes as a JSON number literal that
    [JSON.parse] reads back as the same double.  The ECMAScript
    specification guarantees this of every finite number other than [-0];
    the editor produces no other (widths come from a range input, chart
    values from [parseFloat(value) || 0] on a number input). *)
Theorem decode_encode_roundtrip (number_to_string : jsnum -> string)
  (string_to_number : string -> jsnum) (d : Document) :
  Forall (number_roundtrip number_to_string string_to_number) (doc_numbers d) ->
  decode (parse string_to_number) (encode number_to_string d) = js_doc d.
Proof.
  intros H.
  assert (N : nums_ok number_to_string string_to_number (js_doc d))
    by (unfold nums_ok; rewrite numbers_doc; exact H).
  pose proof (wf_doc d) as W.
  unfold decode, encode.
  destruct (array_brackets number_to_string (map js_block d)) as [H1 H2]. unfold js_doc in *.
  rewrite H1, H2. cbn [andb]. rewrite parse_stringify; [reflexivity | exact W | exact N].
Qed.

Lemma decode_encode_roundtrip_witness :
  Forall (number_roundtrip sample_to_string sample_of_string)
    (doc_numbers (Editor.addChartBlock 5 6 (Editor.addImageBlock 3 4 [text_block "x" "hi"] "a.png"))) /\
  decode (parse sample_of_string)
    (encode sample_to_string (Editor.addChartBlock 5 6 (Editor.addImageBlock 3 4 [text_block "x" "hi"] "a.png"))) =
  js_doc (Editor.addChartBlock 5 6 (Editor.addImageBlock 3 4 [text_block "x" "hi"] "a.png")).
Proof.
  assert (H : Forall (number_roundtrip sample_to_string sample_of_string)
    (doc_numbers (Editor.addChartBlock 5 6 (Editor.addImageBlock 3 4 [text_block "x" "hi"] "a.png")))).
  { vm_compute. repeat constructor. }
  split; [exact H|].
  apply decode_encode_roundtrip. exact H.
Defined.

(** C4 (counterexample): decode does not trim. The string [" [] "] parses
    as the empty array, but since it does not itself start with ['['] the
    parse is not attempted and the legacy one-block document is returned. *)
Lemma padded_array_falls_back :
  parse sample_of_string " [] " = Some (JArray []) /\
  decode (parse sample_of_string) " [] " = legacy_doc " [] " /\
  decode (parse sample_of_string) " [] " <> JArray [].
Proof. split; [reflexivity|]. split; [reflexivity | discriminate]. Qed.

(** C4 (amended): decode never fails, whatever [JSON.parse] does. If the
    raw string itself starts with ['['] and ends with [']'] and parses,
    its value is the result; otherwise, or when the parse fails, the
    result is the one text block with id ["initial"] whose content is the
    whole raw string. In particular ["plain text"], ["[not valid json"]
    and [" [] "] give that fallback, and so does ["[not valid json]"],
    which [JSON.parse] rejects. *)
Theorem decode_spec :
  (forall json_parse s v, startsWith_bracket s = true -> endsWith_bracket s = true ->
     json_parse s = Some v -> decode json_parse s = v) /\
  (forall json_parse s,
     startsWith_bracket s && endsWith_bracket s = false \/ json_parse s = None ->
     decode json_parse s = legacy_doc s) /\
  (forall json_parse,
     decode json_parse "plain text" = legacy_doc "plain text" /\
     decode json_parse "[not valid json" = legacy_doc "[not valid json" /\
     decode json_parse " [] " = legacy_doc " [] ") /\
  (forall string_to_number,
     decode (parse string_to_number) "[not valid json]" = legacy_doc "[not valid json]").
Proof.
  split; [|split; [|split]].
  - intros json_parse s v H1 H2 H. unfold decode. rewrite H1, H2, H. reflexivity.
  - intros json_parse s [H|H]; unfold decode.
    + rewrite H. reflexivity.
    + destruct (startsWith_bracket s && endsWith_bracket s); [rewrite H|]; reflexivity.
  - intros json_parse. split; [|split]; reflexivity.
  - intros stn. reflexivity.
Qed.

Lemma decode_spec_witness :
  decode (parse sample_of_string) "[2.5,[true],-1e3]" =
    JArray [JNumber (sample_of_string "2.5"); JArray [JBool true];
            JNumber (sample_of_string "-1e3")] /\
  decode (parse sample_of_string) "[100]" = JArray [JNumber 100%float] /\
  decode (parse sample_of_string) "[1,2" = legacy_doc "[1,2".
Proof.
  destruct decode_spec as [Hp [Hf _]].
  split; [|split].
  - apply Hp; reflexivity.
  - apply Hp; reflexivity.
  - apply Hf. left. reflexivity.
Defined.

End SerializerFacts.

(* ================================================================== *)
(** * Further properties of the editor and project view *)

(** ** Table cell and header edits *)

Module TableEditFacts.
Import Table.

Lemma nth_error_mapi_from {A B : Type} (f : nat -> A -> B) (k : nat) (l : list A) (i : nat) :
  nth_error (mapi_from f k l) i = option_map (f (k + i)) (nth_error l i).
Proof.
  revert k i; induction l as [|x l IH]; intros k [|i]; simpl; try reflexivity.
  - rewrite Nat.add_0_r. reflexivity.
  - rewrite IH. f_equal. f_equal. lia.
Qed.

Lemma length_mapi_from {A B : Type} (f : nat -> A -> B) (k : nat) (l : list A) :
  List.length (mapi_from f k l) = List.length l.
Proof. revert k; induction l; intros k; simpl; auto. Qed.

Lemma map_length_mapi_from {A : Type} (f : nat -> list A -> list A) (k : nat) (l : list (list A)) :
  (forall i x, List.length (f i x) = List.length x) ->
  map (@List.length A) (mapi_from f k l) = map (@List.length A) l.
Proof.
  intros Hf. revert k; induction l; intros k; simpl; [reflexivity|].
  rewrite Hf, IHl. reflexivity.
Qed.

Lemma rectangular_lengths (t t' : TableData) :
  map (@List.length string) (rows t') = map (@List.length string) (rows t) ->
  colHeaders t' = colHeaders t -> rowHeaders t' = rowHeaders t ->
  rectangular t -> rectangular t'.
Proof.
  intros Hm Hc Hr [n [Hn [Hl [Hf [Hch Hrh]]]]].
  assert (El : List.length (rows t') = List.length (rows t))
    by (rewrite <- (length_map (@List.length string) (rows t')), Hm, length_map; reflexivity).
  exists n. repeat split.
  - exact Hn.
  - lia.
  - apply Forall_forall. intros r Hin.
    assert (In (List.length r) (map (@List.length string) (rows t))) as H
      by (rewrite <- Hm; apply in_map; exact Hin).
    apply in_map_iff in H as [r' [E Hin']]. rewrite <- E.
    exact (proj1 (Forall_forall _ _) Hf r' Hin').
  - intros h Hh. apply Hch. congruence.
  - intros h Hh. rewrite El. apply Hrh. congruence.
Qed.

Definition tbl_plain : TableData :=
  mkTable [["a"; "b"]; ["c"; "d"]]%string None None.

Lemma default_table_rectangular : rectangular Editor.default_table.
Proof.
  exists 3. repeat split; simpl; try lia.
  - repeat constructor.
  - intros h Hh; injection Hh as <-; reflexivity.
  - intros h Hh; injection Hh as <-; reflexivity.
Qed.

Lemma tbl_plain_rectangular : rectangular tbl_plain.
Proof.
  exists 2. repeat split; simpl; try lia.
  - repeat constructor.
  - intros h Hh; discriminate Hh.
  - intros h Hh; discriminate Hh.
Qed.

(** X1: updateCell writes [value] into the one cell at (rowIndex,
    colIndex) when that cell exists and changes no other cell, no row
    length and no header list; out of range it changes nothing. So a
    rectangular table stays rectangular. *)
Theorem updateCell_spec (r c : nat) (v : string) (t : TableData) :
  (forall r' c', cell (updateCell r c v t) r' c' =
                 if (r' =? r) && (c' =? c) then option_map (fun _ => v) (cell t r' c')
                 else cell t r' c') /\
  map (@List.length string) (rows (updateCell r c v t)) = map (@List.length string) (rows t) /\
  colHeaders (updateCell r c v t) = colHeaders t /\
  rowHeaders (updateCell r c v t) = rowHeaders t /\
  (rectangular t -> rectangular (updateCell r c v t)).
Proof.
  assert (Hm : map (@List.length string) (rows (updateCell r c v t)) = map (@List.length string) (rows t)).
  { unfold updateCell, mapi; simpl. apply map_length_mapi_from.
    intros i x. destruct (i =? r); [apply length_mapi_from | reflexivity]. }
  split; [|split; [exact Hm | split; [reflexivity | split; [reflexivity|]]]].
  - intros r' c'. unfold cell, updateCell, mapi; simpl.
    rewrite nth_error_mapi_from. simpl.
    destruct (nth_error (rows t) r') as [row|]; simpl; [|destruct ((r' =? r) && (c' =? c)); reflexivity].
    destruct (r' =? r) eqn:Er; simpl.
    + rewrite nth_error_mapi_from. simpl.
      destruct (nth_error row c'); simpl; destruct (c' =? c); reflexivity.
    + reflexivity.
  - apply rectangular_lengths; [exact Hm | reflexivity | reflexivity].
Qed.

Lemma updateCell_spec_witness :
  rectangular Editor.default_table /\
  rectangular (updateCell 1 2 "x" Editor.default_table) /\
  cell (updateCell 1 2 "x" Editor.default_table) 1 2 = Some "x"%string.
Proof.
  pose proof default_table_rectangular as H.
  destruct (updateCell_spec 1 2 "x" Editor.default_table) as [Hc [_ [_ [_ Hr]]]].
  split; [exact H|]. split; [exact (Hr H)|].
  rewrite Hc. reflexivity.
Defined.

Lemma js_set_in (l : list string) (i : nat) (v : string) :
  i < List.length l ->
  exists l', js_set l i v = Some l' /\ List.length l' = List.length l /\
             forall j, nth_error l' j = if j =? i then Some v else nth_error l j.
Proof.
  revert i; induction l as [|x l IH]; intros [|i] Hi; simpl in Hi; try lia.
  - eexists. split; [reflexivity|]. split; [reflexivity|].
    intros [|j]; reflexivity.
  - destruct (IH i ltac:(lia)) as [l' [E [Hl Hn]]].
    exists (x :: l'). simpl. rewrite E. split; [reflexivity|]. split; [simpl; lia|].
    intros [|j]; simpl; [reflexivity|]. apply Hn.
Qed.

Lemma nth_error_default_cols (r0 : list string) (j : nat) :
  nth_error (mapi (fun i _ => fromCharCode (65 + i)) r0) j =
  if j <? List.length r0 then Some (fromCharCode (65 + j)) else None.
Proof.
  unfold mapi. rewrite nth_error_mapi_from. simpl.
  destruct (j <? List.length r0) eqn:E.
  - apply Nat.ltb_lt in E. destruct (nth_error r0 j) eqn:E2; [reflexivity|].
    apply nth_error_None in E2. lia.
  - apply Nat.ltb_ge in E. rewrite (proj2 (nth_error_None r0 j) E). reflexivity.
Qed.

(** X2: on a rectangular table, editing the header of an existing column
    succeeds, keeps the rows and the row headers and keeps the table
    rectangular (the default letters are stored when no column header
    list existed). The edited column then shows [value], or its default
    letter when [value] is empty, and every other column shows the same
    label as before. *)
Theorem updateColHeader_spec (colIndex : nat) (value : string) (t : TableData) :
  rectangular t -> colIndex < List.length (hd [] (rows t)) ->
  exists t', updateColHeader colIndex value t = Some t' /\
    rectangular t' /\ rows t' = rows t /\ rowHeaders t' = rowHeaders t /\
    colHeaderLabel t' colIndex =
      (if String.eqb value "" then fromCharCode (65 + colIndex) else value) /\
    (forall j, j <> colIndex -> colHeaderLabel t' j = colHeaderLabel t j).
Proof.
  intros Ht Hi. pose proof Ht as [n [Hn [Hr [Hf [Hch Hrh]]]]].
  destruct t as [rs ch rh]; simpl in *.
  destruct rs as [|r0 rs']; [simpl in Hr; lia|]. simpl in Hi.
  inversion Hf as [|? ? Hr0 Hf']; subst n.
  set (base := match ch with Some h => h | None => mapi (fun i _ => fromCharCode (65 + i)) r0 end).
  assert (Hb : col_headers_or_default (mkTable (r0 :: rs') ch rh) = Some base)
    by (unfold col_headers_or_default; simpl; destruct ch; reflexivity).
  assert (Hbl : List.length base = List.length r0).
  { subst base. destruct ch as [h|]; [apply Hch; reflexivity|].
    unfold mapi. apply length_mapi_from. }
  assert (Hbn : forall j, j <> colIndex -> match (match ch with Some h => nth_error h j | None => None end) with
                 | Some s => if String.eqb s "" then fromCharCode (65 + j) else s
                 | None => fromCharCode (65 + j) end =
                 match nth_error base j with
                 | Some s => if String.eqb s "" then fromCharCode (65 + j) else s
                 | None => fromCharCode (65 + j) end).
  { intros j _. subst base. destruct ch as [h|]; [reflexivity|].
    rewrite nth_error_default_cols. destruct (j <? List.length r0); [|reflexivity].
    destruct (String.eqb (fromCharCode (65 + j)) ""); reflexivity. }
  destruct (js_set_in base colIndex value ltac:(lia)) as [l' [E [Hl Hn']]].
  exists (mkTable (r0 :: rs') (Some l') rh).
  unfold updateColHeader. rewrite Hb, E. split; [reflexivity|].
  split; [|split; [reflexivity | split; [reflexivity | split]]].
  - exists (List.length r0). simpl. repeat split; auto.
    intros h Hh. injection Hh as <-. lia.
  - unfold colHeaderLabel; simpl. rewrite Hn', Nat.eqb_refl. reflexivity.
  - intros j Hj. unfold colHeaderLabel; simpl. rewrite Hn'.
    apply Nat.eqb_neq in Hj as Hj'. rewrite Hj'. symmetry. apply Hbn. exact Hj.
Qed.

Lemma updateColHeader_spec_witness :
  rectangular tbl_plain /\ 1 < List.length (hd [] (rows tbl_plain)) /\
  exists t', updateColHeader 1 "Mass" tbl_plain = Some t' /\
             colHeaders t' = Some ["A"; "Mass"]%string /\
             colHeaderLabel t' 1 = "Mass"%string /\ colHeaderLabel t' 0 = "A"%string.
Proof.
  pose proof tbl_plain_rectangular as H.
  assert (Hi : 1 < List.length (hd [] (rows tbl_plain))) by (cbn; lia).
  split; [exact H|]. split; [exact Hi|].
  destruct (updateColHeader_spec 1 "Mass" tbl_plain H Hi) as [t' [E [_ [_ [_ [Hl Ho]]]]]].
  exists t'. split; [exact E|].
  split; [vm_compute in E; injection E as <-; reflexivity|].
  split; [exact Hl|].
  rewrite (Ho 0 ltac:(lia)). reflexivity.
Defined.

Lemma nth_error_default_rows (rs : list (list string)) (j : nat) :
  nth_error (mapi (fun i _ => nat_str (i + 1)) rs) j =
  if j <? List.length rs then Some (nat_str (j + 1)) else None.
Proof.
  unfold mapi. rewrite nth_error_mapi_from. simpl.
  destruct (j <? List.length rs) eqn:E.
  - apply Nat.ltb_lt in E. destruct (nth_error rs j) eqn:E2; [reflexivity|].
    apply nth_error_None in E2. lia.
  - apply Nat.ltb_ge in E. rewrite (proj2 (nth_error_None rs j) E). reflexivity.
Qed.

(** X3: on a rectangular table, editing the header of an existing row
    succeeds, keeps the rows and the column headers and keeps the table
    rectangular. The edited row then shows [value], or its 1-based number
    when [value] is empty, and every other row shows the same label as
    before. *)
Theorem updateRowHeader_spec (rowIndex : nat) (value : string) (t : TableData) :
  rectangular t -> rowIndex < List.length (rows t) ->
  exists t', updateRowHeader rowIndex value t = Some t' /\
    rectangular t' /\ rows t' = rows t /\ colHeaders t' = colHeaders t /\
    rowHeaderLabel t' rowIndex =
      (if String.eqb value "" then nat_str (rowIndex + 1) else value) /\
    (forall j, j <> rowIndex -> rowHeaderLabel t' j = rowHeaderLabel t j).
Proof.
  intros Ht Hi. pose proof Ht as [n [Hn [Hr [Hf [Hch Hrh]]]]].
  destruct t as [rs ch rh]; simpl in *.
  set (base := match rh with Some h => h | None => mapi (fun i _ => nat_str (i + 1)) rs end).
  assert (Hb : row_headers_or_default (mkTable rs ch rh) = base)
    by (unfold row_headers_or_default; simpl; destruct rh; reflexivity).
  assert (Hbl : List.length base = List.length rs).
  { subst base. destruct rh as [h|]; [apply Hrh; reflexivity|].
    unfold mapi. apply length_mapi_from. }
  assert (Hbn : forall j, match (match rh with Some h => nth_error h j | None => None end) with
                 | Some s => if String.eqb s "" then nat_str (j + 1) else s
                 | None => nat_str (j + 1) end =
                 match nth_error base j with
                 | Some s => if String.eqb s "" then nat_str (j + 1) else s
                 | None => nat_str (j + 1) end).
  { intros j. subst base. destruct rh as [h|]; [reflexivity|].
    rewrite nth_error_default_rows. destruct (j <? List.length rs); [|reflexivity].
    destruct (String.eqb (nat_str (j + 1)) ""); reflexivity. }
  destruct (js_set_in base rowIndex value ltac:(lia)) as [l' [E [Hl Hn']]].
  exists (mkTable rs ch (Some l')).
  unfold updateRowHeader. rewrite Hb, E. split; [reflexivity|].
  split; [|split; [reflexivity | split; [reflexivity | split]]].
  - exists n. simpl. repeat split; auto.
    intros h Hh. injection Hh as <-. lia.
  - unfold rowHeaderLabel; simpl. rewrite Hn', Nat.eqb_refl. reflexivity.
  - intros j Hj. unfold rowHeaderLabel; simpl. rewrite Hn'.
    apply Nat.eqb_neq in Hj as Hj'. rewrite Hj'. symmetry. apply Hbn.
Qed.

Lemma updateRowHeader_spec_witness :
  rectangular tbl_plain /\ 1 < List.length (rows tbl_plain) /\
  exists t', updateRowHeader 1 "" tbl_plain = Some t' /\
             rowHeaderLabel t' 1 = "2"%string /\ rowHeaderLabel t' 0 = "1"%string.
Proof.
  pose proof tbl_plain_rectangular as H.
  assert (Hi : 1 < List.length (rows tbl_plain)) by (cbn; lia).
  split; [exact H|]. split; [exact Hi|].
  destruct (updateRowHeader_spec 1 "" tbl_plain H Hi) as [t' [E [_ [_ [_ [Hl Ho]]]]]].
  exists t'. split; [exact E|].
  split; [exact Hl|].
  rewrite (Ho 0 ltac:(lia)). reflexivity.
Defined.

Lemma remove_at_snoc {A : Type} (l : list A) (x : A) : remove_at (List.length l) (l ++ [x]) = l.
Proof. induction l as [|y l IH]; [reflexivity|]. cbn. rewrite IH. reflexivity. Qed.

Lemma map_remove_at_snoc (n : nat) (rs : list (list string)) :
  Forall (fun r => List.length r = n) rs ->
  map (remove_at n) (map (fun r => r ++ [""%string]) rs) = rs.
Proof.
  induction 1 as [|r rs Hr _ IH]; [reflexivity|]. cbn. rewrite IH, <- Hr, remove_at_snoc. reflexivity.
Qed.

(** X4: on a rectangular table, removing the last row right after addRow
    gives back the table, and so does removing the last column right
    after addColumn (header lists included). *)
Theorem table_add_remove_undo (t : TableData) :
  rectangular t ->
  removeRow (List.length (rows t)) (addRow t) = t /\
  exists t', addColumn t = Some t' /\ removeColumn (List.length (hd [] (rows t))) t' = Some t.
Proof.
  intros [n [Hn [Hr [Hrows [Hc Hh]]]]].
  destruct t as [rs ch rh]; cbn [rows colHeaders rowHeaders] in *.
  destruct rs as [|r0 rs']; [cbn in Hr; lia|].
  split.
  - unfold removeRow, addRow. cbn [rows colHeaders rowHeaders].
    rewrite length_app. cbn [List.length].
    replace (1 <? S (List.length rs') + 1) with true by (symmetry; apply Nat.ltb_lt; lia).
    change (S (List.length rs')) with (List.length (r0 :: rs')).
    rewrite remove_at_snoc. f_equal.
    destruct rh as [h|]; [|reflexivity]. cbn [option_map].
    rewrite <- (Hh h eq_refl), remove_at_snoc. reflexivity.
  - pose proof (Forall_inv Hrows) as H0. cbn beta in H0.
    assert (Hrem : forall ch', removeColumn n (mkTable (map (fun r => r ++ [""%string]) (r0 :: rs')) ch' rh) =
       Some (mkTable (r0 :: rs') (option_map (remove_at n) ch') rh)).
    { intros ch'. unfold removeColumn. cbn [rows colHeaders rowHeaders map].
      rewrite length_app, H0. cbn [List.length].
      replace (1 <? n + 1) with true by (symmetry; apply Nat.ltb_lt; lia).
      cbv iota. pose proof (map_remove_at_snoc n (r0 :: rs') Hrows) as Hm. cbn [map] in Hm.
      rewrite Hm. reflexivity. }
    cbn [hd]. rewrite H0. unfold addColumn. cbn [rows colHeaders rowHeaders].
    destruct ch as [h|].
    + eexists; split; [reflexivity|]. rewrite Hrem. cbn [option_map].
      rewrite H0, <- (Hc h eq_refl), remove_at_snoc. reflexivity.
    + eexists; split; [reflexivity|]. rewrite Hrem. reflexivity.
Qed.

Lemma table_add_remove_undo_witness :
  rectangular tbl_plain /\ removeRow 2 (addRow tbl_plain) = tbl_plain /\
  exists t', addColumn tbl_plain = Some t' /\ removeColumn 2 t' = Some tbl_plain.
Proof.
  pose proof tbl_plain_rectangular as H.
  destruct (table_add_remove_undo tbl_plain H) as [H1 H2].
  split; [exact H|]. split; [exact H1|exact H2].
Defined.

End TableEditFacts.

(** ** Chart edits *)

Module ChartEditFacts.

(** X5: removing the last point right after addPoint gives back a chart
    that had at least one point, and toggling the chart type twice gives
    back the chart. *)
Theorem chart_edit_undo (c : ChartData) :
  (data c <> [] -> Chart.removePoint (List.length (data c)) (Chart.addPoint c) = c) /\
  Chart.toggleType (Chart.toggleType c) = c.
Proof.
  split.
  - intros H. unfold Chart.removePoint, Chart.addPoint, Chart.set_data. cbn [data].
    rewrite length_app. cbn [List.length].
    destruct (data c) as [|p ps] eqn:E; [congruence|].
    replace (1 <? List.length (p :: ps) + 1) with true
      by (symmetry; apply Nat.ltb_lt; cbn; lia).
    rewrite <- E, TableEditFacts.remove_at_snoc. destruct c; cbn in *. reflexivity.
  - destruct c as [ty ti x y d]. destruct ty; reflexivity.
Qed.

Lemma chart_edit_undo_witness :
  data Editor.default_chart <> [] /\
  Chart.removePoint 3 (Chart.addPoint Editor.default_chart) = Editor.default_chart.
Proof.
  split; [discriminate|].
  apply (proj1 (chart_edit_undo Editor.default_chart)). discriminate.
Defined.

End ChartEditFacts.

(** ** Block ids under the editor handlers *)

Module EditorIdFacts.
Import Editor.

Lemma N_str_inj (n m : N) : N_str n = N_str m -> n = m.
Proof.
  unfold N_str. intros H.
  apply (f_equal NilEmpty.uint_of_string) in H. rewrite !NilEmpty.usu in H.
  injection H as H. apply (f_equal N.of_uint) in H.
  rewrite !DecimalN.Unsigned.of_to in H. exact H.
Qed.
Lemma map_update_keeps {A : Type} (g : Block -> A) (f : Block -> Block) (id : string) (blocks : Document) :
  (forall b, g (f b) = g b) ->
  map g (map (fun b => if String.eqb (bid b) id then f b else b) blocks) = map g blocks.
Proof.
  intros H. induction blocks as [|b bs IH]; simpl; [reflexivity|].
  rewrite IH. destruct (String.eqb (bid b) id); rewrite ?H; reflexivity.
Qed.

(** X6: the four update handlers keep the ids and the types of the blocks
    in order. Two text edits of the same block keep only the last one, and
    text edits of two different ids commute. *)
Theorem handlers_keep_ids (blocks : Document) (id : string) :
  (forall c, map bid (handleTextChange blocks id c) = map bid blocks /\
             map btype (handleTextChange blocks id c) = map btype blocks) /\
  (forall w, map bid (handleImageResize blocks id w) = map bid blocks /\
             map btype (handleImageResize blocks id w) = map btype blocks) /\
  (forall t, map bid (handleTableChange blocks id t) = map bid blocks /\
             map btype (handleTableChange blocks id t) = map btype blocks) /\
  (forall c, map bid (handleChartChange blocks id c) = map bid blocks /\
             map btype (handleChartChange blocks id c) = map btype blocks) /\
  (forall c1 c2, handleTextChange (handleTextChange blocks id c1) id c2 =
                 handleTextChange blocks id c2) /\
  (forall id' c c', id <> id' ->
     handleTextChange (handleTextChange blocks id c) id' c' =
     handleTextChange (handleTextChange blocks id' c') id c).
Proof.
  split; [intros c; split; apply map_update_keeps; reflexivity|].
  split; [intros c; split; apply map_update_keeps; reflexivity|].
  split; [intros c; split; apply map_update_keeps; reflexivity|].
  split; [intros c; split; apply map_update_keeps; reflexivity|].
  split.
  - intros c1 c2. unfold handleTextChange. rewrite map_map. apply map_ext. intros b.
    destruct (String.eqb (bid b) id) eqn:E; simpl; rewrite ?E; reflexivity.
  - intros id' c c' Hne. unfold handleTextChange. rewrite !map_map. apply map_ext. intros b.
    destruct (String.eqb (bid b) id) eqn:E1, (String.eqb (bid b) id') eqn:E2; simpl;
      rewrite ?E1, ?E2; try reflexivity.
    apply String.eqb_eq in E1, E2. congruence.
Qed.

Definition two_texts : Document := [text_block "a" ""; text_block "b" ""]%string.

Lemma handlers_keep_ids_witness :
  "a"%string <> "b"%string /\
  handleTextChange (handleTextChange two_texts "a" "x") "b" "y" =
  handleTextChange (handleTextChange two_texts "b" "y") "a" "x".
Proof.
  assert (H : "a"%string <> "b"%string) by discriminate.
  split; [exact H|].
  destruct (handlers_keep_ids two_texts "a") as [_ [_ [_ [_ [_ Hc]]]]].
  apply Hc. exact H.
Defined.

Lemma NoDup_snoc2 {A : Type} (l : list A) (x y : A) :
  NoDup l -> ~ In x l -> ~ In y l -> x <> y -> NoDup (l ++ [x; y]).
Proof.
  intros Hl. induction Hl as [|a l Ha Hl IH]; intros Hx Hy Hxy; simpl.
  - constructor; [simpl; intros [H|[]]; congruence | constructor; [intros []|constructor]].
  - constructor.
    + rewrite in_app_iff. simpl. intros [H|[H|[H|[]]]]; [tauto | |]; subst; simpl in *; tauto.
    + apply IH; simpl in *; tauto.
Qed.

(** X7: when the ids of the document are unique and differ from the two
    timestamp ids [now1] and [now2 + 1] ([now1] and [now2] being the two
    reads of [Date.now()], the second not earlier than the first), adding
    an image, table or chart block keeps the ids unique. *)
Theorem add_blocks_keep_ids_unique (now1 now2 : N) (blocks : Document) (src : string) :
  (now1 <= now2)%N ->
  NoDup (map bid blocks) -> ~ In (N_str now1) (map bid blocks) ->
  ~ In (N_str (now2 + 1)) (map bid blocks) ->
  NoDup (map bid (addImageBlock now1 now2 blocks src)) /\
  NoDup (map bid (addTableBlock now1 now2 blocks)) /\
  NoDup (map bid (addChartBlock now1 now2 blocks)).
Proof.
  intros Hle H1 H2 H3.
  assert (Hne : N_str now1 <> N_str (now2 + 1)) by (intros E; apply N_str_inj in E; lia).
  unfold addImageBlock, addTableBlock, addChartBlock. rewrite !map_app. simpl.
  repeat split; apply NoDup_snoc2; assumption.
Qed.

Lemma add_blocks_keep_ids_unique_witness :
  (5 <= 5)%N /\
  NoDup (map bid [text_block "a" ""%string]) /\
  ~ In (N_str 5) (map bid [text_block "a" ""%string]) /\
  ~ In (N_str (5 + 1)) (map bid [text_block "a" ""%string]) /\
  NoDup (map bid (addImageBlock 5 5 [text_block "a" ""%string] "img")).
Proof.
  assert (H0 : (5 <= 5)%N) by lia.
  assert (H1 : NoDup (map bid [text_block "a" ""%string])) by (repeat constructor; intros []).
  assert (H2 : ~ In (N_str 5) (map bid [text_block "a" ""%string]))
    by (vm_compute; intros [H|[]]; discriminate H).
  assert (H3 : ~ In (N_str (5 + 1)) (map bid [text_block "a" ""%string]))
    by (vm_compute; intros [H|[]]; discriminate H).
  split; [exact H0|]. split; [exact H1|]. split; [exact H2|]. split; [exact H3|].
  exact (proj1 (add_blocks_keep_ids_unique 5 5 _ "img" H0 H1 H2 H3)).
Defined.

End EditorIdFacts.

(** ** Search of stored notes *)

Module ViewFacts.
Import Json Serializer PdfExport Views JsonFacts SerializerFacts.

Lemma parse_encode (number_to_string : jsnum -> string) (string_to_number : string -> jsnum)
  (d : Document) :
  Forall (number_roundtrip number_to_string string_to_number) (doc_numbers d) ->
  startsWith_bracket (encode number_to_string d) = true /\
  endsWith_bracket (encode number_to_string d) = true /\
  parse string_to_number (encode number_to_string d) = Some (JArray (map js_block d)).
Proof.
  intros H.
  assert (N : nums_ok number_to_string string_to_number (js_doc d))
    by (unfold nums_ok; rewrite numbers_doc; exact H).
  pose proof (wf_doc d) as W.
  unfold encode, js_doc in *.
  destruct (array_brackets number_to_string (map js_block d)) as [H1 H2].
  split; [exact H1 | split; [exact H2|]].
  apply parse_stringify; assumption.
Qed.

Lemma type_is_block (t : string) (b : Block) :
  type_is t (js_block b) = Some (String.eqb (block_type_str (btype b)) t).
Proof. destruct b as [i ty c w td cd]. reflexivity. Qed.

Lemma content_block (b : Block) : prop (js_block b) "content" = Some (JString (content b)).
Proof. destruct b as [i ty c w td cd]. reflexivity. Qed.

Lemma width_block (b : Block) : prop (js_block b) "width" = option_map JNumber (width b).
Proof. destruct b as [i ty c w td cd]. destruct w, td, cd; reflexivity. Qed.

Lemma is_text_str (t : block_type) :
  String.eqb (block_type_str t) "text" = block_type_eqb t BText.
Proof. destruct t; reflexivity. Qed.

Lemma is_image_str (t : block_type) :
  String.eqb (block_type_str t) "image" = block_type_eqb t BImage.
Proof. destruct t; reflexivity. Qed.

Lemma join_strings (nts : jsnum -> string) (sep : string) (l : list string) :
  join nts sep (map (fun s => Some (JString s)) l) = String.concat sep l.
Proof.
  induction l as [|x l IH]; [reflexivity|].
  destruct l as [|y l]; [reflexivity|].
  change (join nts sep (map (fun s => Some (JString s)) (x :: y :: l)))
    with (join_part nts (Some (JString x)) ++ sep ++ join nts sep (map (fun s => Some (JString s)) (y :: l)))%string.
  rewrite IH. reflexivity.
Qed.

Definition search_part (b : Block) : string :=
  if block_type_eqb (btype b) BText then content b else "".

Lemma text_parts_blocks (d : Document) :
  text_parts (map js_block d) = Some (map (fun s => Some (JString s)) (map search_part d)).
Proof.
  induction d as [|b d IH]; [reflexivity|].
  cbn [map text_parts]. rewrite type_is_block, is_text_str, IH.
  unfold search_part. destruct (block_type_eqb (btype b) BText); [rewrite content_block|]; reflexivity.
Qed.

Definition mixed_doc : Document :=
  [text_block "a" "Hello"; mkBlock "b" BImage "img.png" (Some 50%float) None None;
   text_block "c" "World"]%string.

Lemma contentText_encode (nts : jsnum -> string) (stn : string -> jsnum) (d : Document) :
  Forall (number_roundtrip nts stn) (doc_numbers d) ->
  contentText nts (parse stn) (encode nts d) = String.concat " " (map search_part d).
Proof.
  intros H. destruct (parse_encode nts stn d H) as [H1 [H2 H3]].
  unfold contentText. rewrite H1, H2, H3. cbn [andb].
  rewrite text_parts_blocks, join_strings. reflexivity.
Qed.

(** X9: for a stored document (the encoding of a document whose numbers
    [Number::toString] and [JSON.parse] carry faithfully), the text
    searched by the note filter is the contents of its blocks joined with
    single spaces, each non-text block giving an empty string. *)
Theorem contentText_stored (number_to_string : jsnum -> string)
  (string_to_number : string -> jsnum) (d : Document) :
  Forall (number_roundtrip number_to_string string_to_number) (doc_numbers d) ->
  contentText number_to_string (parse string_to_number) (encode number_to_string d) =
  String.concat " " (map search_part d).
Proof. exact (contentText_encode number_to_string string_to_number d). Qed.

Lemma contentText_stored_witness :
  Forall (number_roundtrip sample_to_string sample_of_string) (doc_numbers mixed_doc) /\
  contentText sample_to_string (parse sample_of_string) (encode sample_to_string mixed_doc) =
  "Hello  World"%string.
Proof.
  assert (H : Forall (number_roundtrip sample_to_string sample_of_string) (doc_numbers mixed_doc))
    by (vm_compute; repeat constructor).
  split; [exact H|].
  rewrite (contentText_stored sample_to_string sample_of_string mixed_doc H). reflexivity.
Defined.

Lemma toLowerCase_app (a b : string) :
  toLowerCase (a ++ b) = (toLowerCase a ++ toLowerCase b)%string.
Proof. induction a as [|c a IH]; simpl; [reflexivity | rewrite IH; reflexivity]. Qed.

Lemma lower_char_idem (c : ascii) : lower_char (lower_char c) = lower_char c.
Proof. destruct c as [[] [] [] [] [] [] [] []]; reflexivity. Qed.

Lemma toLowerCase_idem (s : string) : toLowerCase (toLowerCase s) = toLowerCase s.
Proof. induction s as [|c s IH]; simpl; [reflexivity | rewrite lower_char_idem, IH; reflexivity]. Qed.

Lemma prefix_app (p s z : string) :
  String.prefix p s = true -> String.prefix p (s ++ z) = true.
Proof.
  revert p; induction s as [|c' s IH]; intros p H.
  - destruct p; [destruct z; reflexivity | discriminate].
  - destruct p as [|c p]; [destruct z; reflexivity|]. simpl in *.
    destruct (ascii_dec c c'); [apply IH; exact H | discriminate].
Qed.

Lemma includes_app_r (s z p : string) :
  includes s p = true -> includes (s ++ z) p = true.
Proof.
  induction s as [|c s IH]; intros H.
  - simpl in H. apply orb_true_iff in H as [H|H]; [|discriminate].
    destruct p; [destruct z; reflexivity | discriminate].
  - cbn [includes append] in *. apply orb_true_iff in H as [H|H].
    + apply orb_true_iff. left. exact (prefix_app p (String c s) z H).
    + apply orb_true_iff. right. exact (IH H).
Qed.

Lemma includes_app_l (a s p : string) :
  includes s p = true -> includes (a ++ s) p = true.
Proof.
  induction a as [|c a IH]; intros H; [exact H|].
  cbn [includes append]. apply orb_true_iff. right. exact (IH H).
Qed.

Lemma concat_in (sep x : string) (l : list string) :
  In x l -> exists pre post, String.concat sep l = (pre ++ x ++ post)%string.
Proof.
  induction l as [|y l IH]; intros H; [destruct H|].
  destruct H as [<-|H].
  - destruct l as [|z l].
    + exists ""%string, ""%string. simpl. rewrite append_nil_s. reflexivity.
    + exists ""%string, (sep ++ String.concat sep (z :: l))%string. reflexivity.
  - destruct (IH H) as [pre [post E]].
    destruct l as [|z l]; [destruct H|].
    exists (y ++ sep ++ pre)%string, post.
    change (String.concat sep (y :: z :: l)) with (y ++ sep ++ String.concat sep (z :: l))%string.
    rewrite E, !append_assoc_s. reflexivity.
Qed.

(** X10: the note filter keeps a stored note whenever one of its text
    blocks contains the query, ignoring case. *)
Theorem search_finds_text_block (number_to_string : jsnum -> string)
  (string_to_number : string -> jsnum) (search title date : string) (d : Document) (b : Block) :
  Forall (number_roundtrip number_to_string string_to_number) (doc_numbers d) ->
  In b d -> btype b = BText ->
  includes (toLowerCase (content b)) (toLowerCase search) = true ->
  note_matches number_to_string (parse string_to_number) search
    (mkNote title date (encode number_to_string d)) = true.
Proof.
  intros Hd Hin Ht Hs. unfold note_matches. cbn [note_title note_content].
  rewrite contentText_encode by exact Hd.
  assert (Hx : In (search_part b) (map search_part d)) by (apply in_map; exact Hin).
  destruct (concat_in " " _ _ Hx) as [pre [post E]]. rewrite E.
  unfold search_part in *. rewrite Ht in *. cbn [block_type_eqb] in *.
  rewrite !toLowerCase_app. apply orb_true_iff. right.
  apply includes_app_l, includes_app_r. exact Hs.
Qed.

Lemma search_finds_text_block_witness :
  Forall (number_roundtrip sample_to_string sample_of_string) (doc_numbers mixed_doc) /\
  In (text_block "c" "World") mixed_doc /\
  btype (text_block "c" "World") = BText /\
  includes (toLowerCase "World") (toLowerCase "ORL") = true /\
  note_matches sample_to_string (parse sample_of_string) "ORL"
    (mkNote "t" "2026-01-01" (encode sample_to_string mixed_doc)) = true.
Proof.
  assert (H1 : Forall (number_roundtrip sample_to_string sample_of_string) (doc_numbers mixed_doc))
    by (vm_compute; repeat constructor).
  assert (H2 : In (text_block "c" "World") mixed_doc) by (right; right; left; reflexivity).
  assert (H3 : btype (text_block "c" "World") = BText) by reflexivity.
  assert (H4 : includes (toLowerCase "World") (toLowerCase "ORL") = true) by (vm_compute; reflexivity).
  split; [exact H1|]. split; [exact H2|]. split; [exact H3|]. split; [exact H4|].
  exact (search_finds_text_block sample_to_string sample_of_string "ORL" "t" "2026-01-01"
           mixed_doc _ H1 H2 H3 H4).
Defined.

Lemma note_matches_lower (nts : jsnum -> string) (jp : string -> option jsval)
  (search : string) (n : Note) :
  note_matches nts jp (toLowerCase search) n = note_matches nts jp search n.
Proof. unfold note_matches. rewrite toLowerCase_idem. reflexivity. Qed.

Lemma note_matches_empty (nts : jsnum -> string) (jp : string -> option jsval) (n : Note) :
  note_matches nts jp "" n = true.
Proof.
  unfold note_matches. cbn [toLowerCase].
  destruct (toLowerCase (note_title n)); reflexivity.
Qed.

(** X11: lower-casing the query never changes the notes the filter keeps,
    and the empty query keeps every note. *)
Theorem search_query_case (number_to_string : jsnum -> string)
  (json_parse : string -> option jsval) (search : string) (notes : list Note) :
  filteredNotes number_to_string json_parse (toLowerCase search) notes =
  filteredNotes number_to_string json_parse search notes /\
  filteredNotes number_to_string json_parse "" notes = notes.
Proof.
  unfold filteredNotes. split.
  - induction notes as [|n ns IH]; [reflexivity|]. cbn [filter].
    rewrite note_matches_lower, IH. reflexivity.
  - induction notes as [|n ns IH]; [reflexivity|]. cbn [filter].
    rewrite note_matches_empty, IH. reflexivity.
Qed.

End ViewFacts.

(** ** Checklist items and progress *)

Module ChecklistFacts.
Import Views Checklists.
Local Open Scope string_scope.

Lemma trim_start_length (s : string) : String.length (trim_start s) <= String.length s.
Proof. induction s as [|c s IH]; cbn; [lia|]. destruct (is_js_ws c); cbn; lia. Qed.

Lemma trim_start_idem (s : string) : trim_start (trim_start s) = trim_start s.
Proof.
  induction s as [|c s IH]; [reflexivity|]. cbn. case_eq (is_js_ws c); intros Hc.
  - exact IH.
  - cbn. rewrite Hc. reflexivity.
Qed.

Lemma trim_end_cons (c : ascii) (s : string) :
  trim_end (String c s) =
  match trim_end s with
  | EmptyString => if is_js_ws c then EmptyString else String c EmptyString
  | r => String c r
  end.
Proof. reflexivity. Qed.

Lemma trim_end_idem (s : string) : trim_end (trim_end s) = trim_end s.
Proof.
  induction s as [|c s IH]; [reflexivity|]. rewrite trim_end_cons.
  destruct (trim_end s) as [|c0 r] eqn:E.
  - case_eq (is_js_ws c); intros Hc; [reflexivity|]. cbn. rewrite Hc. reflexivity.
  - rewrite trim_end_cons, IH. reflexivity.
Qed.

Lemma trim_end_head (c : ascii) (s : string) :
  is_js_ws c = false -> exists r, trim_end (String c s) = String c r.
Proof.
  intros Hc. cbn [trim_end]. destruct (trim_end s) as [|c0 r].
  - rewrite Hc. eauto.
  - eauto.
Qed.

Lemma trim_idem (s : string) : trim (trim s) = trim s.
Proof.
  unfold trim. remember (trim_start s) as x eqn:Ex.
  assert (Hx : trim_start x = x) by (subst; apply trim_start_idem).
  destruct x as [|c x'].
  - reflexivity.
  - cbn [trim_start] in Hx. case_eq (is_js_ws c); intros Hc; rewrite Hc in Hx.
    + pose proof (trim_start_length x') as L. rewrite Hx in L. cbn in L. lia.
    + destruct (trim_end_head c x' Hc) as [r Hr]. rewrite Hr. cbn [trim_start].
      rewrite Hc, <- Hr. apply trim_end_idem.
Qed.

Definition find_checklist (checklists : list Checklist) (checklistId : Z) : option Checklist :=
  find (fun cl => Z.eqb (cl_id cl) checklistId) checklists.

Definition lab_checklists : list Checklist :=
  [mkChecklist 1 "Lab" [mkItem 10 "Buy tips" 0]; mkChecklist 2 "Empty" []].

(** X14: a missing or blank entry sends nothing. An insert request always
    targets the given checklist with the trimmed entry, which is non-empty
    and has no surrounding whitespace, and no item of that checklist has
    the same text ignoring case. A duplicate is reported only when such an
    item exists. *)
Theorem handleAddItem_spec (checklists : list Checklist) (entry : option string) (checklistId : Z) :
  (forall e, entry = Some e -> trim e = "" -> handleAddItem checklists entry checklistId = AddNothing) /\
  (entry = None -> handleAddItem checklists entry checklistId = AddNothing) /\
  (forall cid text, handleAddItem checklists entry checklistId = AddInsert cid text ->
     cid = checklistId /\ entry <> None /\ option_map trim entry = Some text /\
     text <> "" /\ trim text = text /\
     forall cl, find_checklist checklists checklistId = Some cl ->
       Forall (fun item => toLowerCase (item_text item) <> toLowerCase text) (items cl)) /\
  (forall text, handleAddItem checklists entry checklistId = AddDuplicate text ->
     option_map trim entry = Some text /\ text <> "" /\
     exists cl item, find_checklist checklists checklistId = Some cl /\
       In item (items cl) /\ toLowerCase (item_text item) = toLowerCase text).
Proof.
  unfold handleAddItem, find_checklist.
  refine (conj _ (conj _ (conj _ _))).
  - intros e -> He. cbn. rewrite He. reflexivity.
  - intros ->. reflexivity.
  - intros cid text H. destruct entry as [e|]; [|discriminate]. cbn [option_map] in H |- *.
    case_eq (String.eqb (trim e) ""); intros He; rewrite He in H; [discriminate|].
    apply String.eqb_neq in He.
    destruct (find (fun cl => Z.eqb (cl_id cl) checklistId) checklists) as [cl|].
    + case_eq (existsb (fun item => String.eqb (toLowerCase (item_text item)) (toLowerCase (trim e))) (items cl));
        intros Hd; rewrite Hd in H; [discriminate|].
      injection H as <- <-.
      refine (conj eq_refl (conj _ (conj eq_refl (conj He (conj (trim_idem e) _))))); [discriminate|].
      intros cl0 Hcl. injection Hcl as <-. apply Forall_forall. intros item Hi Heq.
      assert (existsb (fun item => String.eqb (toLowerCase (item_text item)) (toLowerCase (trim e))) (items cl) = true)
        as Ht by (apply existsb_exists; exists item; split; [exact Hi|apply String.eqb_eq; exact Heq]).
      congruence.
    + injection H as <- <-.
      refine (conj eq_refl (conj _ (conj eq_refl (conj He (conj (trim_idem e) _))))); [discriminate|].
      discriminate.
  - intros text H. destruct entry as [e|]; [|discriminate]. cbn [option_map] in H |- *.
    case_eq (String.eqb (trim e) ""); intros He; rewrite He in H; [discriminate|].
    apply String.eqb_neq in He.
    destruct (find (fun cl => Z.eqb (cl_id cl) checklistId) checklists) as [cl|]; [|discriminate].
    case_eq (existsb (fun item => String.eqb (toLowerCase (item_text item)) (toLowerCase (trim e))) (items cl));
      intros Hd; rewrite Hd in H; [|discriminate].
    injection H as <-. split; [reflexivity|]. split; [exact He|].
    apply existsb_exists in Hd as [item [Hi Heq]]. apply String.eqb_eq in Heq.
    exists cl, item. auto.
Qed.

Lemma handleAddItem_spec_witness :
  handleAddItem lab_checklists (Some "  BUY TIPS ") 1 = AddDuplicate "BUY TIPS" /\
  option_map trim (Some "  BUY TIPS ") = Some "BUY TIPS" /\ "BUY TIPS" <> "" /\
  exists cl item, find_checklist lab_checklists 1 = Some cl /\
    In item (items cl) /\ toLowerCase (item_text item) = toLowerCase "BUY TIPS".
Proof.
  assert (H : handleAddItem lab_checklists (Some "  BUY TIPS ") 1 = AddDuplicate "BUY TIPS")
    by (vm_compute; reflexivity).
  split; [exact H|].
  exact (proj2 (proj2 (proj2 (handleAddItem_spec lab_checklists (Some "  BUY TIPS ") 1))) _ H).
Defined.

Lemma filter_length_le {A} (p : A -> bool) (l : list A) : List.length (filter p l) <= List.length l.
Proof. induction l as [|a l IH]; cbn; [lia|]. destruct (p a); cbn; lia. Qed.

Lemma filter_length_all {A} (p : A -> bool) (l : list A) :
  List.length (filter p l) = List.length l <-> Forall (fun a => p a = true) l.
Proof.
  induction l as [|a l IH]; cbn; [split; auto|].
  pose proof (filter_length_le p l).
  case_eq (p a); intros Ha; cbn.
  - rewrite Forall_cons_iff. split; [intros H0; split; [exact Ha|apply IH; lia]|intros [_ H0]; apply IH in H0; lia].
  - split; [lia|]. intros H0. inversion H0. congruence.
Qed.

Lemma filter_length_none {A} (p : A -> bool) (l : list A) :
  List.length (filter p l) = 0 <-> Forall (fun a => p a = false) l.
Proof.
  induction l as [|a l IH]; cbn; [split; auto|].
  case_eq (p a); intros Ha; cbn.
  - split; [lia|]. intros H0. inversion H0. congruence.
  - rewrite Forall_cons_iff. rewrite IH. tauto.
Qed.

(** X15: the progress of a checklist is between 0 and 100. It is 0 for a
    checklist without items, 100 exactly when it has items and all are
    completed, and 0 exactly when no item is completed. *)
Theorem progress_bounds (cl : Checklist) :
  (0 <= progress cl <= 100)%Q /\
  (items cl = [] -> progress cl == 0)%Q /\
  (progress cl == 100 <-> items cl <> [] /\ Forall (fun i => completed i <> 0%Z) (items cl))%Q /\
  (progress cl == 0 <-> Forall (fun i => completed i = 0%Z) (items cl))%Q.
Proof.
  unfold progress. pose proof (filter_length_le (fun i => negb (Z.eqb (completed i) 0)) (items cl)) as Hle.
  pose proof (filter_length_all (fun i => negb (Z.eqb (completed i) 0)) (items cl)) as Hall.
  pose proof (filter_length_none (fun i => negb (Z.eqb (completed i) 0)) (items cl)) as Hnone.
  unfold completed_count.
  assert (Fa : Forall (fun a => negb (Z.eqb (completed a) 0) = true) (items cl) <->
               Forall (fun i => completed i <> 0%Z) (items cl)).
  { split; apply Forall_impl; intros a Ha.
    - apply negb_true_iff, Z.eqb_neq in Ha. exact Ha.
    - apply negb_true_iff, Z.eqb_neq. exact Ha. }
  assert (Fn : Forall (fun a => negb (Z.eqb (completed a) 0) = false) (items cl) <->
               Forall (fun i => completed i = 0%Z) (items cl)).
  { split; apply Forall_impl; intros a Ha.
    - apply negb_false_iff, Z.eqb_eq in Ha. exact Ha.
    - apply negb_false_iff, Z.eqb_eq. exact Ha. }
  rewrite <- Fa, <- Fn, <- Hall, <- Hnone.
  destruct (items cl) as [|i0 l] eqn:Ei.
  - cbn. refine (conj _ (conj (fun _ => Qeq_refl 0) (conj _ _))).
    + split; discriminate.
    + split; [intros H; discriminate H|intros [H _]; exfalso; exact (H eq_refl)].
    + split; intros _; reflexivity.
  - set (n := List.length (filter _ (i0 :: l))) in *.
    set (t := List.length (i0 :: l)) in *.
    assert (Ht : 0 < t) by (subst t; cbn; lia).
    replace (Nat.ltb 0 t) with true by (symmetry; apply Nat.ltb_lt; exact Ht).
    assert (HT : (0 < inject_Z (Z.of_nat t))%Q).
    { unfold Qlt, inject_Z; cbn [Qnum Qden]. lia. }
    assert (HC : (0 <= inject_Z (Z.of_nat n) <= inject_Z (Z.of_nat t))%Q).
    { split; unfold Qle, inject_Z; cbn [Qnum Qden]; lia. }
    set (x := (inject_Z (Z.of_nat n) / inject_Z (Z.of_nat t))%Q).
    assert (Hx : (x * inject_Z (Z.of_nat t) == inject_Z (Z.of_nat n))%Q).
    { subst x. unfold Qdiv. rewrite <- Qmult_assoc, (Qmult_comm (/ _)), Qmult_inv_r; [apply Qmult_1_r|]. intros E. exact (Qlt_not_eq _ _ HT (Qeq_sym _ _ E)). }
    assert (Heq : forall a b : nat, (inject_Z (Z.of_nat a) == inject_Z (Z.of_nat b))%Q <-> a = b).
    { intros a b. rewrite inject_Z_injective. lia. }
    refine (conj _ (conj _ (conj _ _))).
    + split; nra.
    + intros H; discriminate H.
    + rewrite <- (Heq n t). split.
      * intros H. split; [discriminate|]. nra.
      * intros [_ H]. nra.
    + rewrite <- (Heq n 0). change (inject_Z (Z.of_nat 0)) with 0%Q. split; intros H.
      * assert (Hx0 : (x == 0)%Q) by lra. rewrite <- Hx, Hx0. apply Qmult_0_l.
      * rewrite H in Hx. destruct (Qmult_integral _ _ Hx) as [Hx0|Hx0].
        -- rewrite Hx0. reflexivity.
        -- exfalso. rewrite Hx0 in HT. discriminate HT.
Qed.

Lemma progress_bounds_witness :
  items (mkChecklist 2 "Empty" []) = [] /\ (progress (mkChecklist 2 "Empty" []) == 0)%Q.
Proof.
  assert (H : items (mkChecklist 2 "Empty" []) = []) by reflexivity.
  split; [exact H|].
  exact (proj1 (proj2 (progress_bounds (mkChecklist 2 "Empty" []))) H).
Defined.

End ChecklistFacts.

(** ** Saving a note *)

Module NoteSaveFacts.
Import NoteSave.
Local Open Scope string_scope.

Definition saved_row (r : save_request) : option NoteRow :=
  match r with
  | SaveNothing => None
  | SaveInsert row => Some row
  | SaveUpdate _ row => Some row
  end.

Definition run_draft : NoteDraft := mkDraft (Some 7%Z) (Some "Run") (Some "[]") None.

(** X16: handleSaveNote never sends a note whose title or content is
    missing or empty. What it sends carries the draft's title and content,
    the project's id, and a non-empty date when today's date is non-empty.
    It updates only a draft with a non-zero id, at that id, and it always
    sends a draft whose title and content are non-empty. *)
Theorem handleSaveNote_spec (editingNote : option NoteDraft) (projectId : Z) (today : string) :
  (forall row, saved_row (handleSaveNote editingNote projectId today) = Some row ->
     exists n, editingNote = Some n /\
       draft_title n = Some (row_title row) /\ row_title row <> "" /\
       draft_content n = Some (row_content row) /\ row_content row <> "" /\
       row_project_id row = projectId /\
       (today <> "" -> row_date row <> "")) /\
  (forall i row, handleSaveNote editingNote projectId today = SaveUpdate i row ->
     i <> 0%Z /\ exists n, editingNote = Some n /\ draft_id n = Some i) /\
  (forall n t c, editingNote = Some n -> draft_title n = Some t -> draft_content n = Some c ->
     t <> "" -> c <> "" -> handleSaveNote editingNote projectId today <> SaveNothing).
Proof.
  unfold handleSaveNote. refine (conj _ (conj _ _)).
  - intros row H. destruct editingNote as [n|]; [|discriminate].
    exists n. split; [reflexivity|].
    destruct (draft_title n) as [t|]; [|discriminate].
    destruct (draft_content n) as [c|]; [|discriminate].
    case_eq (String.eqb t ""); intros Ht; rewrite Ht in H; cbn [orb] in H; [discriminate|].
    case_eq (String.eqb c ""); intros Hc; rewrite Hc in H; [discriminate|].
    apply String.eqb_neq in Ht. apply String.eqb_neq in Hc.
    assert (Hrow : row = mkNoteRow t c projectId
                     (match draft_date n with
                      | Some d => if String.eqb d "" then today else d
                      | None => today end)).
    { destruct (draft_id n) as [i|]; [destruct (Z.eqb i 0)|];
        cbn in H; injection H as <-; reflexivity. }
    subst row. cbn [row_title row_content row_project_id row_date].
    refine (conj eq_refl (conj Ht (conj eq_refl (conj Hc (conj eq_refl _))))).
    intros Htoday. destruct (draft_date n) as [d|]; [|exact Htoday].
    case_eq (String.eqb d ""); intros Hd; [exact Htoday|]. apply String.eqb_neq. exact Hd.
  - intros i row H. destruct editingNote as [n|]; [|discriminate].
    destruct (draft_title n) as [t|]; [|discriminate].
    destruct (draft_content n) as [c|]; [|discriminate].
    destruct (String.eqb t "" || String.eqb c ""); [discriminate|].
    destruct (draft_id n) as [j|] eqn:Ej; [|discriminate].
    case_eq (Z.eqb j 0); intros Hj; rewrite Hj in H; [discriminate|].
    injection H as <- _. apply Z.eqb_neq in Hj. split; [exact Hj|]. exists n. auto.
  - intros n t c -> Ht Hc Hte Hce. rewrite Ht, Hc.
    apply String.eqb_neq in Hte. apply String.eqb_neq in Hce. rewrite Hte, Hce. cbn [orb].
    destruct (draft_id n) as [i|]; [destruct (Z.eqb i 0)|]; discriminate.
Qed.

Lemma handleSaveNote_spec_witness :
  Some run_draft = Some run_draft /\ draft_title run_draft = Some "Run" /\
  draft_content run_draft = Some "[]" /\ "Run" <> "" /\ "[]" <> "" /\
  handleSaveNote (Some run_draft) 1 "2026-10-15" <> SaveNothing.
Proof.
  assert (H1 : "Run" <> "") by discriminate.
  assert (H2 : "[]" <> "") by discriminate.
  split; [reflexivity|]. split; [reflexivity|]. split; [reflexivity|].
  split; [exact H1|]. split; [exact H2|].
  destruct (handleSaveNote_spec (Some run_draft) 1 "2026-10-15") as [_ [_ H]].
  exact (H run_draft "Run" "[]" eq_refl eq_refl eq_refl H1 H2).
Defined.

End NoteSaveFacts.
